(** * State-keyed OAuth hand-off: server store, flow handlers, poll controller

    A shallow embedding of [server/index.js] (the in-memory [authStore], its
    periodic sweep and the three handlers [start], [callback], [status]) and of
    the polling part of the React component ([startPolling], [stopPolling],
    [handleAuthComplete]).

    Conventions.
    - [Date.now()] is an integer number of milliseconds: [Z].
    - JavaScript strings are byte strings holding their UTF-8 form.
    - [authStore] is a [Map] whose keys are only ever strings: a
      [gmap string entry].
    - Everything the handlers obtain from outside (the clock, the random
      bytes, the provider's two HTTP answers) is an explicit argument. *)

From Stdlib Require Import ZArith NArith Ascii String List Lia Bool.
From stdpp Require Import base option gmap strings list fin_maps.

#[local] Set Warnings "-register-all".
Local Open Scope string_scope.

(* ===================================================================== *)
(** ** JavaScript values met by the handlers *)
(* ===================================================================== *)

Module Js.

(** Values found in [req.query], in the provider's JSON answers and in the
    fields copied from them into a store record. *)
Inductive jsval : Type :=
| JUndef
| JNull
| JBool (b : bool)
| JNum (n : Z)
| JStr (s : string)
| JArr (items : list jsval)
| JObj (fields : list (string * jsval)).

(** [!!v]: the values that pass an [if (v)] test. *)
Definition truthy (v : jsval) : bool :=
  match v with
  | JUndef | JNull => false
  | JBool b => b
  | JNum n => negb (n =? 0)%Z
  | JStr s => negb (String.eqb s "")
  | JArr _ | JObj _ => true
  end.

(** [a === b].  Arrays and objects built by a parser are fresh references,
    never identical to another value. *)
Definition strict_eq (a b : jsval) : bool :=
  match a, b with
  | JUndef, JUndef => true
  | JNull, JNull => true
  | JBool x, JBool y => Bool.eqb x y
  | JNum x, JNum y => (x =? y)%Z
  | JStr x, JStr y => String.eqb x y
  | _, _ => false
  end.

(** [a || b]. *)
Definition or_else (a b : jsval) : jsval := if truthy a then a else b.

(** Property read [o.k] on a parsed JSON object: [undefined] when absent. *)
Fixpoint get (k : string) (o : list (string * jsval)) : jsval :=
  match o with
  | [] => JUndef
  | (k', v) :: rest => if String.eqb k k' then v else get k rest
  end.

(** A string read from the environment: [undefined] when the variable is
    not set. *)
Definition of_env (e : option string) : jsval :=
  match e with
  | Some s => JStr s
  | None => JUndef
  end.

(** What a rejected promise carries, as far as the handlers look into it:
    [err?.response?.data?.error_description] ([JUndef] when any link of the
    chain is missing) and [err.message]. *)
Record thrown : Type := Thrown {
  error_description : jsval;
  message : string
}.

(** [new Error(msg)]: no [response] field. *)
Definition new_Error (msg : string) : thrown :=
  {| error_description := JUndef; message := msg |}.

(** The settlement of an awaited promise. *)
Inductive outcome (A : Type) : Type :=
| Resolved (a : A)
| Rejected (e : thrown).
Arguments Resolved {A} a.
Arguments Rejected {A} e.

End Js.

(* ===================================================================== *)
(** ** [URLSearchParams]: the form-urlencoded serializer and parser *)
(* ===================================================================== *)

Module Url.

Definition in_range (lo hi : N) (c : ascii) : bool :=
  let n := N_of_ascii c in ((lo <=? n) && (n <=? hi))%N.

(** Bytes the serializer leaves as they are: ASCII letters and digits and
    the four marks [* - . _]. *)
Definition unreserved (c : ascii) : bool :=
  in_range 48 57 c || in_range 65 90 c || in_range 97 122 c
  || Ascii.eqb c "*" || Ascii.eqb c "-" || Ascii.eqb c "." || Ascii.eqb c "_".

Definition hex_upper (n : N) : ascii :=
  if (n <? 10)%N then ascii_of_N (48 + n) else ascii_of_N (55 + n).

Definition hex_lower (n : N) : ascii :=
  if (n <? 10)%N then ascii_of_N (48 + n) else ascii_of_N (87 + n).

Definition hex_val (c : ascii) : option N :=
  let n := N_of_ascii c in
  if in_range 48 57 c then Some (n - 48)%N
  else if in_range 65 70 c then Some (n - 55)%N
  else if in_range 97 102 c then Some (n - 87)%N
  else None.

Definition encode_byte (c : ascii) : string :=
  if unreserved c then String c ""
  else if Ascii.eqb c " " then "+"
  else let n := N_of_ascii c in
       String "%" (String (hex_upper (n / 16)) (String (hex_upper (n mod 16)) "")).

Fixpoint urlencode (s : string) : string :=
  match s with
  | EmptyString => EmptyString
  | String c r => encode_byte c ++ urlencode r
  end.

Definition encode_pair (p : string * string) : string :=
  urlencode (fst p) ++ "=" ++ urlencode (snd p).

(** [params.toString()]: the pairs in insertion order, joined by [&]. *)
Fixpoint to_query (l : list (string * string)) : string :=
  match l with
  | [] => ""
  | [p] => encode_pair p
  | p :: rest => encode_pair p ++ "&" ++ to_query rest
  end.

Fixpoint urldecode (s : string) : string :=
  match s with
  | EmptyString => EmptyString
  | String c r =>
      if Ascii.eqb c "+" then String " " (urldecode r)
      else if Ascii.eqb c "%" then
        match r with
        | String a (String b r') =>
            match hex_val a, hex_val b with
            | Some x, Some y => String (ascii_of_N (16 * x + y)) (urldecode r')
            | _, _ => String c (urldecode r)
            end
        | _ => String c (urldecode r)
        end
      else String c (urldecode r)
  end.

(** The pieces of [s] between occurrences of [sep]. *)
Fixpoint split_on (sep : ascii) (s : string) : list string :=
  match s with
  | EmptyString => [EmptyString]
  | String c r =>
      if Ascii.eqb c sep then EmptyString :: split_on sep r
      else match split_on sep r with
           | [] => [String c ""]
           | h :: t => String c h :: t
           end
  end.

(** [s] cut at its first [sep]; the second part is empty when there is
    none. *)
Fixpoint cut_first (sep : ascii) (s : string) : string * string :=
  match s with
  | EmptyString => (EmptyString, EmptyString)
  | String c r =>
      if Ascii.eqb c sep then (EmptyString, r)
      else let '(a, b) := cut_first sep r in (String c a, b)
  end.

Definition nonempty (s : string) : bool := negb (String.eqb s "").

(** [[...new URLSearchParams(q)]]: the decoded name/value pairs of a query
    string. *)
Definition parse_query (q : string) : list (string * string) :=
  List.map (fun seg => let '(n, v) := cut_first "=" seg in (urldecode n, urldecode v))
           (List.filter nonempty (split_on "&" q)).

(** The part of a URL after its first [?]. *)
Definition query_of (url : string) : string := snd (cut_first "?" url).

(** [buf.toString('hex')]. *)
Fixpoint hex_of_bytes (b : list ascii) : string :=
  match b with
  | [] => ""
  | c :: r => let n := N_of_ascii c in
              String (hex_lower (n / 16)) (String (hex_lower (n mod 16)) (hex_of_bytes r))
  end.

End Url.

(* ===================================================================== *)
(** ** The server: [authStore], the sweep and the three handlers *)
(* ===================================================================== *)

(** A record of [authStore].  A field the object literal does not set reads
    as [undefined]. *)
Module Entry.

Inductive status_t : Type := pending | complete | error.

Record t : Type := Make {
  status : status_t;
  createdAt : Z;
  err : Js.jsval;            (* the [error] field *)
  access_token : Js.jsval;
  refresh_token : Js.jsval;
  id_token : Js.jsval;
  expires_in : Js.jsval;
  user : Js.jsval
}.

Definition terminal (e : t) : bool :=
  match status e with
  | pending => false
  | complete | error => true
  end.

End Entry.

Module Server.
Import Js.

(** The constants read from the environment when the process starts. *)
Record config : Type := Config {
  CLIENT_ID : option string;
  CLIENT_SECRET : option string;
  CALLBACK_URI : string
}.

Definition AUTH_TTL_MS : Z := 5 * 60 * 1000.

(** The period handed to [setInterval] for the sweep. *)
Definition SWEEP_PERIOD_MS : Z := 60 * 1000.

Abbreviation store := (gmap string Entry.t).

(** [String(v)] for a value read from the environment. *)
Definition env_string (e : option string) : string :=
  match e with
  | Some s => s
  | None => "undefined"
  end.

(** *** Responses *)

(** The text placed in the page by [popupClosePage]: a literal, or the
    template [`Authentication failed: ${message}`]. *)
Inductive page_text : Type :=
| Text (s : string)
| AuthenticationFailed (message : jsval).

(** [popupClosePage(message, success)], by its two arguments. *)
Record page : Type := popupClosePage {
  page_message : page_text;
  page_success : bool
}.

Inductive body : Type :=
| Json (v : jsval)
| Html (p : page).

Record response : Type := Response {
  code : Z;
  content : body
}.

(** [res.json(v)], [res.status(c).json(v)], [res.send(p)],
    [res.status(c).send(p)]. *)
Definition json (v : jsval) : response := Response 200 (Json v).
Definition status_json (c : Z) (v : jsval) : response := Response c (Json v).
Definition send (p : page) : response := Response 200 (Html p).
Definition status_send (c : Z) (p : page) : response := Response c (Html p).

(** *** The object literals written to the store *)

Definition pending_entry (now : Z) : Entry.t :=
  {| Entry.status := Entry.pending; Entry.createdAt := now;
     Entry.err := JUndef; Entry.access_token := JUndef;
     Entry.refresh_token := JUndef; Entry.id_token := JUndef;
     Entry.expires_in := JUndef; Entry.user := JUndef |}.

Definition error_entry (cause : jsval) (now : Z) : Entry.t :=
  {| Entry.status := Entry.error; Entry.createdAt := now;
     Entry.err := cause; Entry.access_token := JUndef;
     Entry.refresh_token := JUndef; Entry.id_token := JUndef;
     Entry.expires_in := JUndef; Entry.user := JUndef |}.

Definition complete_entry (tokenData : list (string * jsval)) (user : jsval)
    (now : Z) : Entry.t :=
  {| Entry.status := Entry.complete; Entry.createdAt := now;
     Entry.err := JUndef;
     Entry.access_token := get "access_token" tokenData;
     Entry.refresh_token := get "refresh_token" tokenData;
     Entry.id_token := get "id_token" tokenData;
     Entry.expires_in := get "expires_in" tokenData;
     Entry.user := user |}.

(** *** The sweep *)

(** [now - entry.createdAt > AUTH_TTL_MS]. *)
Definition expired (now : Z) (e : Entry.t) : bool :=
  (now - Entry.createdAt e >? AUTH_TTL_MS)%Z.

(** One pass of the loop body over the listed entries. *)
Definition sweep_loop (now : Z) (entries : list (string * Entry.t)) (s : store) : store :=
  fold_left (fun acc kv => if expired now (snd kv) then delete (fst kv) acc else acc)
            entries s.

(** The callback of the sweep timer; [now] is its [Date.now()]. *)
Definition sweep (now : Z) (s : store) : store :=
  sweep_loop now (map_to_list s) s.

(** *** GET /auth/google/start *)

Definition AUTH_ENDPOINT : string := "https://accounts.google.com/o/oauth2/v2/auth".

Definition start_params (cfg : config) (state : string) : list (string * string) :=
  [ ("client_id", env_string (CLIENT_ID cfg));
    ("redirect_uri", CALLBACK_URI cfg);
    ("response_type", "code");
    ("scope", "openid email profile");
    ("state", state);
    ("access_type", "offline");
    ("prompt", "consent") ].

(** [rand] is what [crypto.randomBytes(32)] returned, [now] the clock. *)
Definition start (cfg : config) (rand : list ascii) (now : Z) (s : store)
    : store * response :=
  if negb (truthy (of_env (CLIENT_ID cfg))) then
    (s, status_json 500 (JObj [("error", JStr "Missing GOOGLE_CLIENT_ID")]))
  else
    let state := Url.hex_of_bytes rand in
    let s' := <[state := pending_entry now]> s in
    let popupUrl := AUTH_ENDPOINT ++ "?" ++ Url.to_query (start_params cfg state) in
    (s', json (JObj [("state", JStr state); ("popupUrl", JStr popupUrl)])).

(** *** GET /auth/google/callback *)

Record query : Type := Query {
  q_code : jsval;
  q_state : jsval;
  q_error : jsval
}.

(** [state && authStore.has(state)]: the key when the test passes.  The
    keys of the store are strings, so no other value is ever found. *)
Definition known (s : store) (state : jsval) : option string :=
  match state with
  | JStr k => if truthy state && bool_decide (is_Some (s !! k)) then Some k else None
  | _ => None
  end.

(** The body of the token request. *)
Record token_request : Type := TokenRequest {
  tr_code : jsval;
  tr_client_id : option string;
  tr_client_secret : option string;
  tr_redirect_uri : string;
  tr_grant_type : string
}.

(** The two outbound calls. *)
Inductive call : Type :=
| PostToken (r : token_request)
| GetTokenInfo (id_token : jsval).

(** The provider as the handler sees it: the settlement of each call.  A
    resolved call carries [data], the JSON object of the response body. *)
Record provider : Type := Provider {
  token : token_request -> outcome (list (string * jsval));
  tokeninfo : jsval -> outcome (list (string * jsval))
}.

Definition user_of (verified : list (string * jsval)) : jsval :=
  JObj [ ("sub", get "sub" verified);
         ("email", get "email" verified);
         ("email_verified", JBool (strict_eq (get "email_verified" verified) (JStr "true")));
         ("name", get "name" verified);
         ("picture", get "picture" verified);
         ("given_name", get "given_name" verified);
         ("family_name", get "family_name" verified) ].

(** The parameters posted to the token endpoint for [code]. *)
Definition request_for (cfg : config) (code : jsval) : token_request :=
  {| tr_code := code; tr_client_id := CLIENT_ID cfg;
     tr_client_secret := CLIENT_SECRET cfg;
     tr_redirect_uri := CALLBACK_URI cfg;
     tr_grant_type := "authorization_code" |}.

(** The [try] block up to the store write: the calls made, and either the
    token data with the derived user or what was thrown. *)
Definition exchange (cfg : config) (prov : provider) (code : jsval)
    : list call * outcome (list (string * jsval) * jsval) :=
  let req := request_for cfg code in
  match token prov req with
  | Rejected e => ([PostToken req], Rejected e)
  | Resolved tokenData =>
      let idt := get "id_token" tokenData in
      if truthy idt then
        match tokeninfo prov idt with
        | Rejected e => ([PostToken req; GetTokenInfo idt], Rejected e)
        | Resolved verified =>
            if negb (strict_eq (get "aud" verified) (of_env (CLIENT_ID cfg))) then
              ([PostToken req; GetTokenInfo idt],
               Rejected (new_Error "Token audience mismatch"))
            else
              ([PostToken req; GetTokenInfo idt], Resolved (tokenData, user_of verified))
        end
      else ([PostToken req], Resolved (tokenData, JNull))
  end.

(** The synchronous head of the handler: it answers at once, or goes on to
    the exchange for a known key. *)
Definition callback_enter (q : query) (now : Z) (s : store)
    : (store * response) + (string * jsval) :=
  if truthy (q_error q) then
    match known s (q_state q) with
    | Some k =>
        inl (<[k := error_entry (q_error q) now]> s,
             send (popupClosePage (Text "Authentication cancelled or failed.") false))
    | None =>
        inl (s, send (popupClosePage (Text "Authentication cancelled or failed.") false))
    end
  else
    match known s (q_state q) with
    | None => inl (s, status_send 400 (popupClosePage (Text "Invalid or expired state.") false))
    | Some k =>
        if negb (truthy (q_code q)) then
          inl (<[k := error_entry (JStr "No authorization code received") now]> s,
               send (popupClosePage (Text "No authorization code received.") false))
        else inr (k, q_code q)
    end.

(** The tail of the handler, after the awaits: the store write and the
    page.  [s] is the store as it is at that moment. *)
Definition callback_settle (k : string)
    (r : outcome (list (string * jsval) * jsval)) (now : Z) (s : store)
    : store * response :=
  match r with
  | Resolved (tokenData, user) =>
      (<[k := complete_entry tokenData user now]> s,
       send (popupClosePage
               (Text "Authentication successful! You can close this window.") true))
  | Rejected e =>
      let message :=
        or_else (error_description e)
                (or_else (JStr (message e)) (JStr "Token exchange failed")) in
      (<[k := error_entry message now]> s,
       send (popupClosePage (AuthenticationFailed message) false))
  end.

(** The handler run with no other handler between its head and its tail. *)
Definition callback (cfg : config) (prov : provider) (q : query) (now : Z) (s : store)
    : store * response * list call :=
  match callback_enter q now s with
  | inl (s', resp) => (s', resp, [])
  | inr (k, code) =>
      let '(calls, r) := exchange cfg prov code in
      let '(s', resp) := callback_settle k r now s in
      (s', resp, calls)
  end.

(** *** GET /auth/google/status/:state *)

Definition status (state : string) (s : store) : store * response :=
  match s !! state with
  | None =>
      (s, status_json 404 (JObj [("status", JStr "not_found");
                                 ("error", JStr "State not found or expired")]))
  | Some entry =>
      match Entry.status entry with
      | Entry.pending => (s, json (JObj [("status", JStr "pending")]))
      | Entry.error =>
          (delete state s,
           json (JObj [("status", JStr "error"); ("error", Entry.err entry)]))
      | Entry.complete =>
          (delete state s,
           json (JObj [("status", JStr "complete");
                       ("access_token", Entry.access_token entry);
                       ("refresh_token", Entry.refresh_token entry);
                       ("id_token", Entry.id_token entry);
                       ("expires_in", Entry.expires_in entry);
                       ("user", Entry.user entry)]))
      end
  end.

(** *** The server as a whole *)

(** What the process reacts to: the three routes and the sweep timer. *)
Inductive request : Type :=
| GetStart (rand : list ascii)
| GetCallback (prov : provider) (q : query)
| GetStatus (state : string)
| SweepTick.

(** The store after one request served at time [now]. *)
Definition handle (cfg : config) (now : Z) (r : request) (s : store) : store :=
  match r with
  | GetStart rand => fst (start cfg rand now s)
  | GetCallback prov q => fst (fst (callback cfg prov q now s))
  | GetStatus state => fst (status state s)
  | SweepTick => sweep now s
  end.

(** The store after a sequence of timed requests, each served to its end
    before the next. *)
Definition serve (cfg : config) (l : list (Z * request)) (s : store) : store :=
  fold_left (fun acc tr => handle cfg (fst tr) (snd tr) acc) l s.

(** No [start] of the sequence draws the token [k]. *)
Definition never_draws (k : string) (l : list (Z * request)) : Prop :=
  Forall (fun tr => match snd tr with
                    | GetStart rand => Url.hex_of_bytes rand <> k
                    | _ => True
                    end) l.

End Server.

(* ===================================================================== *)
(** ** The client: the poll controller of the React component *)
(* ===================================================================== *)

Module GoogleUser.
Record t : Type := Make {
  sub : string;
  email : string;
  email_verified : bool;
  name : string;
  picture : string;
  given_name : option string;
  family_name : option string
}.
End GoogleUser.

Module PollStatus.
Inductive t : Type := pending | complete | error | not_found.
End PollStatus.

Module AuthStatusResponse.
Record t : Type := Make {
  status : PollStatus.t;
  error : option string;
  access_token : option string;
  refresh_token : option string;
  id_token : option string;
  expires_in : option Z;
  user : option GoogleUser.t
}.
End AuthStatusResponse.

Module AuthState.
Record t : Type := Make {
  loading : bool;
  polling : bool;
  error : option string;
  success : option bool;
  accessToken : option string;
  idToken : option string;
  user : option GoogleUser.t
}.
End AuthState.

Module Client.
Import Js.

Definition POLL_INTERVAL_MS : Z := 1000.
Definition MAX_POLL_ATTEMPTS : nat := 300.

(** What the component does that can be seen from outside. *)
Inductive event : Type :=
| CheckAuthStatus (state : string)      (* a call of [checkAuthStatus] *)
| SetAuthState (a : AuthState.t)         (* a call of [setAuthState] *)
| SetInterval (period : Z)               (* [window.setInterval] *)
| ClearInterval (id : positive)          (* [clearInterval] *)
| Warn.                                  (* [console.warn] *)

(** The two refs, the React state, and the events so far (latest first). *)
Record ctrl : Type := Ctrl {
  pollCount : nat;
  pollInterval : option positive;
  authState : AuthState.t;
  trace : list event
}.

(** [{ loading: false, polling: false }]. *)
Definition idle : AuthState.t :=
  AuthState.Make false false None None None None None.

(** The component when mounted: [useRef(0)], [useRef(null)],
    [useState(idle)]. *)
Definition init : ctrl := Ctrl 0 None idle [].

Definition setAuthState (a : AuthState.t) (c : ctrl) : ctrl :=
  {| pollCount := pollCount c; pollInterval := pollInterval c;
     authState := a; trace := SetAuthState a :: trace c |}.

Definition stopPolling (c : ctrl) : ctrl :=
  match pollInterval c with
  | Some id =>
      {| pollCount := 0; pollInterval := None;
         authState := authState c; trace := ClearInterval id :: trace c |}
  | None =>
      {| pollCount := 0; pollInterval := None;
         authState := authState c; trace := trace c |}
  end.

(** [s || d] on an optional string. *)
Definition or_default (s : option string) (d : string) : string :=
  match s with
  | Some x => if String.eqb x "" then d else x
  | None => d
  end.

Definition failed (msg : string) : AuthState.t :=
  AuthState.Make false false (Some msg) None None None None.

Definition handleAuthComplete (result : AuthStatusResponse.t) (c : ctrl) : ctrl :=
  let c := stopPolling c in
  match AuthStatusResponse.status result with
  | PollStatus.complete =>
      setAuthState
        (AuthState.Make false false None (Some true)
           (AuthStatusResponse.access_token result)
           (AuthStatusResponse.id_token result)
           (AuthStatusResponse.user result)) c
  | PollStatus.error =>
      setAuthState
        (failed (or_default (AuthStatusResponse.error result) "Authentication failed")) c
  | _ => c
  end.

(** The interval callback up to its [await]: the attempt is counted, and
    either the budget is spent or [checkAuthStatus] is called. *)
Definition tick_head (state : string) (c : ctrl) : ctrl * bool :=
  let c := {| pollCount := (pollCount c + 1)%nat; pollInterval := pollInterval c;
              authState := authState c; trace := trace c |} in
  if (MAX_POLL_ATTEMPTS <? pollCount c)%nat then
    (setAuthState (failed "Authentication timed out. Please try again.") (stopPolling c),
     false)
  else
    ({| pollCount := pollCount c; pollInterval := pollInterval c;
        authState := authState c; trace := CheckAuthStatus state :: trace c |},
     true).

(** The callback after the [await], on the settlement of the call. *)
Definition tick_tail (o : outcome AuthStatusResponse.t) (c : ctrl) : ctrl :=
  match o with
  | Resolved result =>
      match AuthStatusResponse.status result with
      | PollStatus.complete | PollStatus.error =>
          handleAuthComplete result c
      | PollStatus.not_found =>
          setAuthState (failed "Session expired. Please try again.") (stopPolling c)
      | PollStatus.pending => c
      end
  | Rejected _ =>
      {| pollCount := pollCount c; pollInterval := pollInterval c;
         authState := authState c; trace := Warn :: trace c |}
  end.

(** [id] is the handle [window.setInterval] returns. *)
Definition startPolling (id : positive) (c : ctrl) : ctrl :=
  let a := authState c in
  let c := setAuthState
             (AuthState.Make (AuthState.loading a) true (AuthState.error a)
                (AuthState.success a) (AuthState.accessToken a)
                (AuthState.idToken a) (AuthState.user a)) c in
  {| pollCount := pollCount c; pollInterval := Some id;
     authState := authState c; trace := SetInterval POLL_INTERVAL_MS :: trace c |}.

Definition is_check (e : event) : bool :=
  match e with CheckAuthStatus _ => true | _ => false end.

(** A [setAuthState] that ends the attempt: polling off and not loading. *)
Definition is_surface (e : event) : bool :=
  match e with
  | SetAuthState a => negb (AuthState.polling a) && negb (AuthState.loading a)
  | _ => false
  end.

(** The number of [checkAuthStatus] calls made so far, and the ending
    [setAuthState] calls made so far. *)
Definition checks (c : ctrl) : nat := length (List.filter is_check (trace c)).
Definition surfaces (c : ctrl) : list event := List.filter is_surface (trace c).

(** One period of the timer, the call settling before the next period.  A
    cleared timer does not fire.  [o] is the settlement of the call, if one
    is made. *)
Definition period (state : string) (o : outcome AuthStatusResponse.t) (c : ctrl) : ctrl :=
  match pollInterval c with
  | None => c
  | Some _ =>
      let '(c', called) := tick_head state c in
      if called then tick_tail o c' else c'
  end.

(** [n] periods against a stub whose answer to the call number [i] (from 0)
    is [stub i]. *)
Fixpoint run (stub : nat -> outcome AuthStatusResponse.t) (state : string)
    (n : nat) (c : ctrl) : ctrl :=
  match n with
  | O => c
  | S n' => run stub state n' (period state (stub (checks c)) c)
  end.




Definition terminal_response (o : outcome AuthStatusResponse.t) : bool :=
  match o with
  | Resolved r =>
      match AuthStatusResponse.status r with
      | PollStatus.pending => false
      | _ => true
      end
  | Rejected _ => false
  end.

(** What the component shows for a terminal answer. *)
Definition surfaced (r : AuthStatusResponse.t) : AuthState.t :=
  match AuthStatusResponse.status r with
  | PollStatus.complete =>
      AuthState.Make false false None (Some true)
        (AuthStatusResponse.access_token r) (AuthStatusResponse.id_token r)
        (AuthStatusResponse.user r)
  | PollStatus.error =>
      failed (or_default (AuthStatusResponse.error r) "Authentication failed")
  | _ => failed "Session expired. Please try again."
  end.

End Client.

(* ===================================================================== *)
(** ** The server: the legacy POST /auth/google/exchange *)
(* ===================================================================== *)

Module Legacy.
Import Js Server.

(** What the handler's [catch] reads of a rejected call:
    [error?.response?.status], [error?.response?.data] and [error.message]. *)
Record rejection : Type := Rejection {
  response_status : option Z;
  response_data : jsval;
  rejection_message : string
}.

Inductive settled (A : Type) : Type :=
| Fulfilled (a : A)
| Failed (e : rejection).
Arguments Fulfilled {A} a.
Arguments Failed {A} e.

Record provider : Type := Provider {
  token : token_request -> settled (list (string * jsval));
  tokeninfo : jsval -> settled (list (string * jsval))
}.

Definition userInfo_of (verifiedToken : list (string * jsval)) : jsval :=
  JObj [ ("sub", get "sub" verifiedToken);
         ("email", get "email" verifiedToken);
         ("email_verified",
          JBool (strict_eq (get "email_verified" verifiedToken) (JStr "true")));
         ("name", get "name" verifiedToken);
         ("picture", get "picture" verifiedToken);
         ("given_name", get "given_name" verifiedToken);
         ("family_name", get "family_name" verifiedToken);
         ("locale", get "locale" verifiedToken);
         ("iat", get "iat" verifiedToken);
         ("exp", get "exp" verifiedToken) ].

(** The parameters posted to the token endpoint; [REDIRECT_URI] is the
    constant of that name. *)
Definition request_for (cfg : config) (REDIRECT_URI : string) (code : jsval)
    : token_request :=
  {| tr_code := code; tr_client_id := CLIENT_ID cfg;
     tr_client_secret := CLIENT_SECRET cfg;
     tr_redirect_uri := REDIRECT_URI;
     tr_grant_type := "authorization_code" |}.

(** The final [res.json] of the [try] block. *)
Definition token_bundle (tokenData : list (string * jsval)) (userInfo : jsval) : response :=
  json (JObj [ ("token_type", get "token_type" tokenData);
               ("access_token", get "access_token" tokenData);
               ("expires_in", get "expires_in" tokenData);
               ("refresh_token", get "refresh_token" tokenData);
               ("id_token", get "id_token" tokenData);
               ("scope", get "scope" tokenData);
               ("user", userInfo);
               ("verified", JBool (truthy userInfo)) ]).

(** The [catch] block. *)
Definition failure (e : rejection) : response :=
  let status :=
    match response_status e with
    | Some n => if (n =? 0)%Z then 500%Z else n
    | None => 500%Z
    end in
  let message :=
    or_else (response_data e)
            (or_else (JStr (rejection_message e)) (JStr "Token exchange failed")) in
  status_json status (JObj [("error", message)]).

(** The handler; [code] is [req.body.code].  It returns the response and the
    outbound calls it made. *)
Definition exchange (cfg : config) (REDIRECT_URI : string) (prov : provider)
    (code : jsval) : response * list call :=
  if negb (truthy code) then
    (status_json 400 (JObj [("error", JStr "Missing authorization code")]), [])
  else if negb (truthy (of_env (CLIENT_ID cfg)))
          || negb (truthy (of_env (CLIENT_SECRET cfg))) then
    (status_json 500
       (JObj [("error", JStr "Missing GOOGLE_CLIENT_ID or GOOGLE_CLIENT_SECRET")]), [])
  else
    let req := request_for cfg REDIRECT_URI code in
    match token prov req with
    | Failed e => (failure e, [PostToken req])
    | Fulfilled tokenData =>
        let idt := get "id_token" tokenData in
        if truthy idt then
          match tokeninfo prov idt with
          | Failed e => (failure e, [PostToken req; GetTokenInfo idt])
          | Fulfilled verifiedToken =>
              if negb (strict_eq (get "aud" verifiedToken) (of_env (CLIENT_ID cfg))) then
                (status_json 401
                   (JObj [("error", JStr "Token was not issued for this application")]),
                 [PostToken req; GetTokenInfo idt])
              else
                (token_bundle tokenData (userInfo_of verifiedToken),
                 [PostToken req; GetTokenInfo idt])
          end
        else (token_bundle tokenData JNull, [PostToken req])
    end.

(** The same rejection as the popup flow's [catch] reads it:
    [err?.response?.data?.error_description] and [err.message]. *)
Definition to_thrown (e : rejection) : thrown :=
  {| error_description :=
       match response_data e with
       | JObj fields => get "error_description" fields
       | _ => JUndef
       end;
     message := rejection_message e |}.

Definition to_outcome {A : Type} (r : settled A) : outcome A :=
  match r with
  | Fulfilled a => Resolved a
  | Failed e => Rejected (to_thrown e)
  end.

(** The same provider as the popup flow sees it. *)
Definition popup_view (prov : provider) : Server.provider :=
  {| Server.token := fun r => to_outcome (token prov r);
     Server.tokeninfo := fun t => to_outcome (tokeninfo prov t) |}.

End Legacy.

(* ===================================================================== *)
(** ** The client: login, logout and the status line *)
(* ===================================================================== *)

Module StartAuthResponse.
Record t : Type := Make {
  state : string;
  popupUrl : string
}.
End StartAuthResponse.

Module Login.
Import Js Client.

(** What [startGoogleAuth] gave: the response, or what the [catch] of
    [handleLogin] sees of the thrown value ([Some m] for an [Error] with
    message [m], [None] for a value that is no [Error]). *)
Inductive started : Type :=
| Started (r : StartAuthResponse.t)
| Threw (e : option string).

(** [{ loading: true, polling: false }]. *)
Definition starting : AuthState.t :=
  AuthState.Make true false None None None None None.

(** The period of the timer that watches the popup. *)
Definition POPUP_WATCH_MS : Z := 500.

(** [handleLogin].  [popup] tells whether [window.open] returned a window,
    [id] is the handle of the poll timer. *)
Definition handleLogin (r : started) (popup : bool) (id : positive) (c : ctrl) : ctrl :=
  let c := setAuthState starting c in
  match r with
  | Started resp =>
      if negb popup then
        setAuthState (failed "Popup blocked. Please allow popups for this site.") c
      else
        let c := startPolling id c in
        {| pollCount := pollCount c; pollInterval := pollInterval c;
           authState := authState c; trace := SetInterval POPUP_WATCH_MS :: trace c |}
  | Threw e =>
      setAuthState
        (failed (match e with
                 | Some m => m
                 | None => "Failed to start authentication"
                 end)) c
  end.

(** One firing of the popup watcher, whose handle is [wid]; [closed] is
    [popup.closed].  The timeout it sets has an empty body. *)
Definition popupWatcher (closed : bool) (wid : positive) (c : ctrl) : ctrl :=
  if closed then
    {| pollCount := pollCount c; pollInterval := pollInterval c;
       authState := authState c; trace := ClearInterval wid :: trace c |}
  else c.

Definition handleLogout (c : ctrl) : ctrl := setAuthState idle c.

(** [if (v)] on the optional fields of the state. *)
Definition set_true (b : option bool) : bool :=
  match b with Some true => true | _ => false end.

Definition nonempty (s : option string) : bool :=
  match s with Some x => negb (String.eqb x "") | None => false end.

Definition statusText (a : AuthState.t) : string :=
  if AuthState.loading a && negb (AuthState.polling a) then "Starting authentication..."
  else if AuthState.polling a then "Waiting for authentication..."
  else if set_true (AuthState.success a) then "Signed in"
  else if nonempty (AuthState.error a) then
    match AuthState.error a with Some e => e | None => "" end
  else "Ready to sign in".

(** The [disabled] attribute of the sign-in button. *)
Definition button_disabled (a : AuthState.t) : bool :=
  AuthState.loading a || AuthState.polling a.

End Login.

(* ===================================================================== *)
(** ** Vocabulary of the statements *)
(* ===================================================================== *)

Import Js Server Client.

(** The four fixed responses of the handlers. *)

Definition not_found_response : response :=
  status_json 404 (JObj [("status", JStr "not_found");
                         ("error", JStr "State not found or expired")]).

Definition config_error : response :=
  status_json 500 (JObj [("error", JStr "Missing GOOGLE_CLIENT_ID")]).

Definition failure_page : response :=
  send (popupClosePage (Text "Authentication cancelled or failed.") false).

Definition success_page : response :=
  send (popupClosePage (Text "Authentication successful! You can close this window.") true).

(** Whether byte [x] occurs in [s]. *)
Fixpoint has_char (x : ascii) (s : string) : bool :=
  match s with
  | EmptyString => false
  | String c r => Ascii.eqb c x || has_char x r
  end.

(** The controller before [startPolling]: the counter at 0 (its initial
    value, and the value every [stopPolling] leaves), no timer, no event. *)
Definition ready (a : AuthState.t) : ctrl := Ctrl 0 None a [].

Definition timed_out : AuthState.t := failed "Authentication timed out. Please try again.".

(* ===================================================================== *)
(** ** Sample data *)
(* ===================================================================== *)

Definition cfg0 : config :=
  {| CLIENT_ID := Some "client-1"; CLIENT_SECRET := Some "secret";
     CALLBACK_URI := "http://localhost:3001/auth/google/callback" |}.

(** A provider whose token endpoint answers with an access token only. *)
Definition prov_no_id : provider :=
  {| token := fun _ => Resolved [("access_token", JStr "T"); ("expires_in", JNum 3599)];
     tokeninfo := fun _ => Rejected (new_Error "Request failed with status code 400") |}.

(** A provider whose identity token was issued to another client. *)
Definition prov_other_aud : provider :=
  {| token := fun _ => Resolved [("access_token", JStr "T"); ("id_token", JStr "I")];
     tokeninfo := fun _ => Resolved [("aud", JStr "client-2"); ("sub", JStr "42")] |}.

(** A provider whose identity token was issued to this client. *)
Definition prov_ok : provider :=
  {| token := fun _ => Resolved [("access_token", JStr "T"); ("id_token", JStr "I")];
     tokeninfo := fun _ => Resolved [("aud", JStr "client-1"); ("sub", JStr "42");
                                     ("email", JStr "a@b.c"); ("email_verified", JStr "true")] |}.

Definition store_pending : store := {[ "X" := pending_entry 0 ]}.

Definition done_entry : Entry.t :=
  complete_entry [("access_token", JStr "T")] JNull 10.

Definition store_done : store := {[ "X" := done_entry ]}.

(** [?code=c&state=X&error=]: an [error] parameter with an empty value. *)
Definition q_empty_error : query :=
  {| q_code := JStr "c"; q_state := JStr "X"; q_error := JStr "" |}.

(** [?error=access_denied&state=X]. *)
Definition q_denied : query :=
  {| q_code := JUndef; q_state := JStr "X"; q_error := JStr "access_denied" |}.

(** [?code=c&state=X]. *)
Definition q_code_X : query :=
  {| q_code := JStr "c"; q_state := JStr "X"; q_error := JUndef |}.

(** Four random bytes, enough to see the hex form. *)
Definition rand0 : list ascii := map ascii_of_N [0; 171; 255; 16]%N.

Definition pending_answer : AuthStatusResponse.t :=
  AuthStatusResponse.Make PollStatus.pending None None None None None None.

Definition complete_answer : AuthStatusResponse.t :=
  AuthStatusResponse.Make PollStatus.complete None (Some "T") None (Some "I") (Some 3599%Z) None.

(** The stub of the scenario: pending four times, then complete. *)
Definition stub_4_pending (i : nat) : outcome AuthStatusResponse.t :=
  if (i <? 4)%nat then Resolved pending_answer else Resolved complete_answer.

(* ===================================================================== *)
(** ** Further vocabulary *)
(* ===================================================================== *)

Definition is_hex_lower (c : ascii) : bool :=
  Url.in_range 48 57 c || Url.in_range 97 102 c.

Fixpoint all_chars (P : ascii -> bool) (s : string) : bool :=
  match s with
  | EmptyString => true
  | String c r => P c && all_chars P r
  end.

(** The bytes a hex string stands for, two digits a byte. *)
Fixpoint bytes_of_hex (s : string) : list ascii :=
  match s with
  | String a (String b r) =>
      match Url.hex_val a, Url.hex_val b with
      | Some x, Some y => ascii_of_N (16 * x + y) :: bytes_of_hex r
      | _, _ => []
      end
  | _ => []
  end.

(** The tokens the [start] requests of a sequence draw. *)
Fixpoint drawn (l : list (Z * request)) : list string :=
  match l with
  | [] => []
  | (_, GetStart rand) :: rest => Url.hex_of_bytes rand :: drawn rest
  | _ :: rest => drawn rest
  end.

(** No record of [s] is stamped later than [T]. *)
Definition stamped_by (T : Z) (s : store) : Prop :=
  forall k e, s !! k = Some e -> (Entry.createdAt e <= T)%Z.

(** The clock does not go back: the times of [l] are nondecreasing from
    [t]. *)
Fixpoint clock_from (t : Z) (l : list (Z * request)) : Prop :=
  match l with
  | [] => True
  | (now, _) :: rest => (t <= now)%Z /\ clock_from now rest
  end.

(** The time of the last request of [l], [t] when there is none. *)
Fixpoint last_time (t : Z) (l : list (Z * request)) : Z :=
  match l with
  | [] => t
  | (now, _) :: rest => last_time now rest
  end.

(** The cause stored by the [catch] branch of [callback]. *)
Definition cause_of (e : thrown) : jsval :=
  if truthy (error_description e) then error_description e
  else if negb (String.eqb (message e) "") then JStr (message e)
  else JStr "Token exchange failed".

(** 32 bytes, as [crypto.randomBytes(32)] returns. *)
Definition rand32 : list ascii := map ascii_of_nat (seq 100 32).

Definition rand32' : list ascii := map ascii_of_nat (seq 101 32).

(** [?code=c&state[]=X]: the state parsed as an array. *)
Definition q_array_state : query :=
  {| q_code := JStr "c"; q_state := JArr [JStr "X"]; q_error := JUndef |}.

(** [?state=X]. *)
Definition q_no_code : query :=
  {| q_code := JUndef; q_state := JStr "X"; q_error := JUndef |}.

(** A token endpoint that refuses the code. *)
Definition prov_refuses : provider :=
  {| token := fun _ => Rejected {| error_description := JStr "Bad Request";
                                   message := "Request failed with status code 400" |};
     tokeninfo := fun _ => Rejected (new_Error "unreachable") |}.

(** A provider that reports [email_verified] as a boolean. *)
Definition prov_bool_verified : provider :=
  {| token := fun _ => Resolved [("access_token", JStr "T"); ("id_token", JStr "I")];
     tokeninfo := fun _ => Resolved [("aud", JStr "client-1"); ("email_verified", JBool true)] |}.

Definition legacy_ok : Legacy.provider :=
  {| Legacy.token := fun _ => Legacy.Fulfilled [("access_token", JStr "T"); ("id_token", JStr "I")];
     Legacy.tokeninfo := fun _ => Legacy.Fulfilled [("aud", JStr "client-1"); ("sub", JStr "42")] |}.

Definition legacy_other_aud : Legacy.provider :=
  {| Legacy.token := fun _ => Legacy.Fulfilled [("access_token", JStr "T"); ("id_token", JStr "I")];
     Legacy.tokeninfo := fun _ => Legacy.Fulfilled [("aud", JStr "client-2")] |}.

Definition legacy_refuses : Legacy.provider :=
  {| Legacy.token := fun _ =>
       Legacy.Failed {| Legacy.response_status := Some 400%Z;
                        Legacy.response_data :=
                          JObj [("error", JStr "invalid_grant");
                                ("error_description", JStr "Bad Request")];
                        Legacy.rejection_message := "Request failed with status code 400" |};
     Legacy.tokeninfo := fun _ => Legacy.Fulfilled [] |}.

Definition cfg_unset : config :=
  {| CLIENT_ID := None; CLIENT_SECRET := None;
     CALLBACK_URI := "http://localhost:3001/auth/google/callback" |}.


(** A store in which the token of [rand32] already has a record. *)
Definition store_taken : store := {[ Url.hex_of_bytes rand32 := done_entry ]}.


(* ===================================================================== *)
(** ** The definitions at work *)
(* ===================================================================== *)

Example urlencode_scope : Url.urlencode "openid email profile" = "openid+email+profile".
Proof. reflexivity. Qed.

Example urlencode_uri :
  Url.urlencode "http://localhost:3001/auth/google/callback"
  = "http%3A%2F%2Flocalhost%3A3001%2Fauth%2Fgoogle%2Fcallback".
Proof. reflexivity. Qed.

Example parse_query_sample :
  Url.parse_query "a=1&b=x+y&&c=%2F" = [("a", "1"); ("b", "x y"); ("c", "/")].
Proof. reflexivity. Qed.

(** start, callback with a matching audience, status twice. *)
Example end_to_end :
  let s1 := fst (start cfg0 rand0 0 ∅) in
  let q := {| q_code := JStr "xyz"; q_state := JStr "00abff10"; q_error := JUndef |} in
  let s2 := fst (fst (callback cfg0 prov_ok q 1000 s1)) in
  let '(s3, r3) := status "00abff10" s2 in
  r3 = json (JObj [("status", JStr "complete"); ("access_token", JStr "T");
                   ("refresh_token", JUndef); ("id_token", JStr "I");
                   ("expires_in", JUndef);
                   ("user", JObj [("sub", JStr "42"); ("email", JStr "a@b.c");
                                  ("email_verified", JBool true); ("name", JUndef);
                                  ("picture", JUndef); ("given_name", JUndef);
                                  ("family_name", JUndef)])])
  /\ status "00abff10" s3 = (∅, not_found_response).
Proof. split; reflexivity. Qed.

Example poll_scenario_trace :
  trace (run stub_4_pending "abc" 7 (startPolling 1 (ready idle)))
  = [ SetAuthState (surfaced complete_answer); ClearInterval 1;
      CheckAuthStatus "abc"; CheckAuthStatus "abc"; CheckAuthStatus "abc";
      CheckAuthStatus "abc"; CheckAuthStatus "abc";
      SetInterval 1000;
      SetAuthState (AuthState.Make false true None None None None None) ].
Proof. reflexivity. Qed.

(* ===================================================================== *)
(** ** Properties of the server *)
(* ===================================================================== *)

(** *** The store as a map: sweep *)

Lemma sweep_loop_lookup (now : Z) (l : list (string * Entry.t)) (s : store) (k : string) :
  sweep_loop now l s !! k
  = if existsb (fun kv => String.eqb (fst kv) k && expired now (snd kv)) l
    then None else s !! k.
Proof.
  revert s. induction l as [|[k0 e0] l IH]; intros s; [reflexivity|].
  unfold sweep_loop in *. cbn [fold_left existsb fst snd]. rewrite IH.
  destruct (existsb _ l); [by rewrite orb_true_r|]. rewrite orb_false_r.
  destruct (expired now e0); [|by rewrite andb_false_r].
  rewrite andb_true_r. destruct (String.eqb_spec k0 k) as [->|Hne].
  - apply lookup_delete_eq.
  - by apply lookup_delete_ne.
Qed.

Lemma sweep_lookup (now : Z) (s : store) (k : string) :
  sweep now s !! k
  = match s !! k with
    | Some e => if expired now e then None else Some e
    | None => None
    end.
Proof.
  unfold sweep. rewrite sweep_loop_lookup.
  destruct (existsb _ _) eqn:Hex.
  - apply existsb_exists in Hex as [[k0 e0] [Hin Hk]].
    apply andb_true_iff in Hk as [Hk He]. cbn in Hk, He.
    apply String.eqb_eq in Hk as ->.
    apply list_elem_of_In, elem_of_map_to_list in Hin. by rewrite Hin, He.
  - destruct (s !! k) as [e|] eqn:Hk; [|reflexivity].
    destruct (expired now e) eqn:He; [|reflexivity].
    assert (existsb (fun kv => String.eqb (fst kv) k && expired now (snd kv))
              (map_to_list s) = true) as Hyes; [|congruence].
    apply existsb_exists. exists (k, e). split.
    + by apply list_elem_of_In, elem_of_map_to_list.
    + cbn. by rewrite String.eqb_refl, He.
Qed.

Lemma expired_gt (now : Z) (e : Entry.t) :
  expired now e = true <-> (now - Entry.createdAt e > 300000)%Z.
Proof. unfold expired, AUTH_TTL_MS. rewrite Z.gtb_gt. lia. Qed.

Lemma expired_le (now : Z) (e : Entry.t) :
  expired now e = false <-> (now - Entry.createdAt e <= 300000)%Z.
Proof.
  unfold expired, AUTH_TTL_MS. rewrite Z.gtb_ltb, Z.ltb_ge. lia.
Qed.

(** *** [known] *)

Lemma known_Some (s : store) (state : jsval) (k : string) :
  known s state = Some k <-> state = JStr k /\ k <> "" /\ is_Some (s !! k).
Proof.
  unfold known. destruct state as [| |b|n|x|l|o]; try (split; [discriminate|intros [? _]; discriminate]).
  cbn [truthy]. split.
  - destruct (String.eqb_spec x "") as [->|Hne]; cbn; [discriminate|].
    case_bool_decide; [|discriminate]. intros [= ->]. done.
  - intros ([= ->] & Hne & Hin).
    destruct (String.eqb_spec k "") as [->|_]; [done|]. cbn.
    by rewrite bool_decide_eq_true_2.
Qed.

(** *** What [callback] does to the store *)

Lemma callback_settle_store (k : string) (r : outcome (list (string * jsval) * jsval))
    (now : Z) (s : store) :
  exists e', fst (callback_settle k r now s) = <[k := e']> s
             /\ Entry.terminal e' = true /\ Entry.createdAt e' = now
             /\ ((exists cause, e' = error_entry cause now)
                 \/ (exists tokenData user, e' = complete_entry tokenData user now)).
Proof.
  destruct r as [[tokenData user]|e]; cbn.
  - eexists; repeat split; right; eauto.
  - eexists; repeat split; left; eauto.
Qed.

Lemma callback_known (cfg : config) (prov : provider) (q : query) (now : Z)
    (s : store) (k : string) :
  known s (q_state q) = Some k ->
  exists e', fst (fst (callback cfg prov q now s)) = <[k := e']> s
             /\ Entry.terminal e' = true /\ Entry.createdAt e' = now
             /\ ((exists cause, e' = error_entry cause now)
                 \/ (exists tokenData user, e' = complete_entry tokenData user now)).
Proof.
  intros Hk. unfold callback, callback_enter. rewrite Hk.
  destruct (truthy (q_error q)); cbn.
  - eexists; repeat split; left; eauto.
  - destruct (truthy (q_code q)); cbn.
    + destruct (exchange cfg prov (q_code q)) as [calls r].
      destruct (callback_settle_store k r now s) as (e' & He & Hrest).
      destruct (callback_settle k r now s) as [s' resp]. cbn in *. eauto.
    + eexists; repeat split; left; eauto.
Qed.

Lemma callback_unknown (cfg : config) (prov : provider) (q : query) (now : Z) (s : store) :
  known s (q_state q) = None ->
  fst (fst (callback cfg prov q now s)) = s /\ snd (callback cfg prov q now s) = [].
Proof.
  intros Hk. unfold callback, callback_enter. rewrite Hk.
  by destruct (truthy (q_error q)).
Qed.

(** *** Reading a record: [status] *)

Lemma status_absent (state : string) (s : store) :
  s !! state = None -> status state s = (s, not_found_response).
Proof. intros Hnone. unfold status. by rewrite Hnone. Qed.

(** Only [start] creates a record: a token with no record stays without
    one through any requests in which no [start] draws it again. *)
Lemma handle_absent (cfg : config) (now : Z) (r : request) (s : store) (k : string) :
  s !! k = None ->
  match r with GetStart rand => Url.hex_of_bytes rand <> k | _ => True end ->
  handle cfg now r s !! k = None.
Proof.
  intros Hk Hr. destruct r as [rand|prov q|state|]; cbn [handle].
  - unfold start. destruct (negb _); cbn [fst]; [exact Hk|].
    by rewrite lookup_insert_ne.
  - destruct (known s (q_state q)) as [k'|] eqn:Hkn.
    + destruct (callback_known cfg prov q now s k' Hkn) as (e' & -> & _).
      apply known_Some in Hkn as (_ & _ & [e He]).
      destruct (decide (k' = k)) as [->|Hne]; [congruence|].
      by rewrite lookup_insert_ne.
    + by destruct (callback_unknown cfg prov q now s Hkn) as [-> _].
  - unfold status. destruct (s !! state) as [e|]; [|exact Hk].
    destruct (Entry.status e); cbn [fst]; [exact Hk|..];
      (destruct (decide (state = k)) as [->|Hne];
       [apply lookup_delete_eq|by rewrite lookup_delete_ne]).
  - by rewrite sweep_lookup, Hk.
Qed.

Lemma serve_absent (cfg : config) (l : list (Z * request)) (s : store) (k : string) :
  s !! k = None -> never_draws k l -> serve cfg l s !! k = None.
Proof.
  revert s. induction l as [|[now r] l IH]; intros s Hk Hl; [exact Hk|].
  apply Forall_cons in Hl as [Hr Hl]. unfold serve in *. cbn [fold_left fst snd].
  apply IH; [|exact Hl]. by apply handle_absent.
Qed.

(** C8. For a state-token with no record in the store, [status] answers 404
    with [{status: 'not_found', error}] and leaves the store as it is.  The
    handler is a total function: there is no input on which it fails. *)
Theorem status_unknown_not_found (state : string) (s : store) :
  s !! state = None ->
  status state s = (s, not_found_response)
  /\ code (snd (status state s)) = 404%Z.
Proof. intros Hnone. by rewrite status_absent. Qed.

Lemma status_unknown_not_found_witness :
  (∅ : store) !! "abc" = None /\ status "abc" ∅ = (∅, not_found_response).
Proof.
  split; [reflexivity|].
  apply (status_unknown_not_found "abc" ∅). reflexivity.
Defined.

(** C1. At-most-once delivery.  For a record that is terminal, the first
    [status] call returns its whole payload and deletes it, and a later call
    with the same token answers not_found: the next one, and any one after
    further requests among which no [start] draws the same token again.  For
    a pending record [status] answers pending and leaves the store
    unchanged. *)
Theorem status_delivers_at_most_once (state : string) (s : store) (e : Entry.t) :
  s !! state = Some e ->
  match Entry.status e with
  | Entry.pending =>
      status state s = (s, json (JObj [("status", JStr "pending")]))
  | Entry.error =>
      status state s
      = (delete state s,
         json (JObj [("status", JStr "error"); ("error", Entry.err e)]))
      /\ delete state s !! state = None
      /\ status state (delete state s) = (delete state s, not_found_response)
      /\ (forall cfg l, never_draws state l ->
            snd (status state (serve cfg l (delete state s))) = not_found_response)
  | Entry.complete =>
      status state s
      = (delete state s,
         json (JObj [("status", JStr "complete");
                     ("access_token", Entry.access_token e);
                     ("refresh_token", Entry.refresh_token e);
                     ("id_token", Entry.id_token e);
                     ("expires_in", Entry.expires_in e);
                     ("user", Entry.user e)]))
      /\ delete state s !! state = None
      /\ status state (delete state s) = (delete state s, not_found_response)
      /\ (forall cfg l, never_draws state l ->
            snd (status state (serve cfg l (delete state s))) = not_found_response)
  end.
Proof.
  intros He.
  assert (status state (delete state s) = (delete state s, not_found_response)) as Hsecond.
  { apply status_absent, lookup_delete_eq. }
  assert (forall cfg l, never_draws state l ->
            snd (status state (serve cfg l (delete state s))) = not_found_response) as Hlater.
  { intros cfg l Hl. rewrite status_absent; [reflexivity|].
    apply serve_absent; [apply lookup_delete_eq|exact Hl]. }
  destruct (Entry.status e) eqn:Hst; unfold status at 1; rewrite He, Hst;
    [reflexivity| |];
    (split; [reflexivity|split; [apply lookup_delete_eq|split; [exact Hsecond|exact Hlater]]]).
Qed.

Lemma status_delivers_at_most_once_witness :
  store_done !! "X" = Some done_entry
  /\ status "X" store_done
     = (∅, json (JObj [("status", JStr "complete"); ("access_token", JStr "T");
                       ("refresh_token", JUndef); ("id_token", JUndef);
                       ("expires_in", JUndef); ("user", JNull)]))
  /\ status "X" ∅ = (∅, not_found_response).
Proof.
  assert (store_done !! "X" = Some done_entry) as H by reflexivity.
  pose proof (status_delivers_at_most_once "X" store_done done_entry H) as (H1 & _ & H2 & _).
  split; [exact H|]. split.
  - rewrite H1. unfold store_done. by rewrite delete_singleton_eq.
  - unfold store_done in H2. by rewrite delete_singleton_eq in H2.
Defined.

(** *** The sweep *)

(** C4. A sweep at time [now] deletes exactly the records with
    [now - createdAt > 300000] (5 minutes) and keeps every other record as it
    is; the timer period is 60000 ms.  A record that [start] created more
    than the TTL ago and that nothing has written since is gone after the
    sweep, and [status] answers not_found for it. *)
Theorem sweep_deletes_exactly_expired (now : Z) (s : store) :
  AUTH_TTL_MS = 300000%Z /\ SWEEP_PERIOD_MS = 60000%Z
  /\ (forall k, s !! k = None -> sweep now s !! k = None)
  /\ (forall k e, s !! k = Some e ->
        ((now - Entry.createdAt e > 300000)%Z -> sweep now s !! k = None)
        /\ ((now - Entry.createdAt e <= 300000)%Z -> sweep now s !! k = Some e))
  /\ (forall k e, s !! k = Some e -> (now - Entry.createdAt e > 300000)%Z ->
        status k (sweep now s) = (sweep now s, not_found_response))
  /\ (forall cfg rand t0, truthy (of_env (CLIENT_ID cfg)) = true ->
        (now - t0 > 300000)%Z ->
        snd (status (Url.hex_of_bytes rand) (sweep now (fst (start cfg rand t0 s))))
        = not_found_response).
Proof.
  split; [reflexivity|]. split; [reflexivity|].
  assert (forall k e, s !! k = Some e -> (now - Entry.createdAt e > 300000)%Z ->
            sweep now s !! k = None) as Hold.
  { intros k e Hk Hage. rewrite sweep_lookup, Hk.
    apply expired_gt in Hage. by rewrite Hage. }
  repeat split.
  - intros k Hk. by rewrite sweep_lookup, Hk.
  - by apply Hold.
  - intros Hage. rewrite sweep_lookup, H. apply expired_le in Hage. by rewrite Hage.
  - intros k e Hk Hage. by apply status_absent, (Hold k e).
  - intros cfg rand t0 Hcfg Hage. unfold start. rewrite Hcfg. cbn [negb fst].
    rewrite status_absent; [reflexivity|].
    rewrite sweep_lookup, lookup_insert_eq.
    assert (expired now (pending_entry t0) = true) as ->; [|reflexivity].
    apply expired_gt. exact Hage.
Qed.

Lemma sweep_deletes_exactly_expired_witness :
  store_pending !! "X" = Some (pending_entry 0)
  /\ (300001 - Entry.createdAt (pending_entry 0) > 300000)%Z
  /\ status "X" (sweep 300001 store_pending) = (sweep 300001 store_pending, not_found_response)
  /\ sweep 300000 store_pending !! "X" = Some (pending_entry 0).
Proof.
  assert (store_pending !! "X" = Some (pending_entry 0)) as H by reflexivity.
  split; [exact H|]. split; [cbn; lia|]. split.
  - apply (proj1 (proj2 (proj2 (proj2 (proj2 (sweep_deletes_exactly_expired 300001 store_pending)))))
             "X" (pending_entry 0) H). cbn; lia.
  - apply (proj1 (proj2 (proj2 (proj2 (sweep_deletes_exactly_expired 300000 store_pending))))
             "X" (pending_entry 0) H). cbn; lia.
Defined.

(** *** [callback] *)

(** C7, as stated, fails: a request that carries an [error] parameter with
    an empty value does not take the error branch.  With a known pending
    state and a successful exchange the record becomes complete and the
    success page is rendered. *)
Lemma callback_empty_error_completes :
  q_error q_empty_error <> JUndef
  /\ known store_pending (q_state q_empty_error) = Some "X"
  /\ callback cfg0 prov_no_id q_empty_error 1 store_pending
     = (<["X" := complete_entry [("access_token", JStr "T"); ("expires_in", JNum 3599)]
                                JNull 1]> store_pending,
        success_page,
        [PostToken (request_for cfg0 (JStr "c"))])
  /\ snd (status "X" (fst (fst (callback cfg0 prov_no_id q_empty_error 1 store_pending))))
     = json (JObj [("status", JStr "complete"); ("access_token", JStr "T");
                   ("refresh_token", JUndef); ("id_token", JUndef);
                   ("expires_in", JNum 3599); ("user", JNull)]).
Proof. repeat split; discriminate. Qed.

(** C7 (amended). When the [error] query parameter is non-empty (truthy),
    [callback] makes no outbound call and renders the failure page with
    code 200 whether or not the state is known; when the state is known its
    record is replaced by an error record carrying that parameter as cause,
    and the next [status] call for it answers [{status: 'error', error}];
    when the state is not known the store is unchanged. *)
Theorem callback_error_branch (cfg : config) (prov : provider) (q : query)
    (now : Z) (s : store) :
  truthy (q_error q) = true ->
  match known s (q_state q) with
  | Some k =>
      callback cfg prov q now s
      = (<[k := error_entry (q_error q) now]> s, failure_page, [])
      /\ status k (<[k := error_entry (q_error q) now]> s)
         = (delete k s, json (JObj [("status", JStr "error"); ("error", q_error q)]))
  | None => callback cfg prov q now s = (s, failure_page, [])
  end.
Proof.
  intros Herr. unfold callback, callback_enter. rewrite Herr.
  destruct (known s (q_state q)) as [k|]; [|reflexivity].
  split; [reflexivity|].
  unfold status. rewrite lookup_insert_eq. cbn. by rewrite delete_insert_eq.
Qed.

Lemma callback_error_branch_witness :
  truthy (q_error q_denied) = true
  /\ callback cfg0 prov_no_id q_denied 5 store_pending
     = (<["X" := error_entry (JStr "access_denied") 5]> store_pending, failure_page, [])
  /\ status "X" (<["X" := error_entry (JStr "access_denied") 5]> store_pending)
     = (delete "X" store_pending,
        json (JObj [("status", JStr "error"); ("error", JStr "access_denied")])).
Proof.
  split; [reflexivity|].
  exact (callback_error_branch cfg0 prov_no_id q_denied 5 store_pending eq_refl).
Defined.

(** C2, as stated, fails: a record that is already complete and has not yet
    been read is overwritten by a later [callback] with the same state. *)
Lemma callback_overwrites_terminal :
  store_done !! "X" = Some done_entry
  /\ Entry.status done_entry = Entry.complete
  /\ fst (fst (callback cfg0 prov_no_id q_denied 20 store_done)) !! "X"
     = Some (error_entry (JStr "access_denied") 20)
  /\ error_entry (JStr "access_denied") 20 <> done_entry.
Proof. repeat split; discriminate. Qed.

(** C2 (amended). [callback] writes a terminal record (complete or error)
    for its state whenever that state is present in the store, whatever the
    status of the record already there; it changes no other key, creates no
    record and deletes none.  When the state is not known the store is
    unchanged. *)
Theorem callback_store_transitions (cfg : config) (prov : provider) (q : query)
    (now : Z) (s : store) :
  match known s (q_state q) with
  | Some k =>
      is_Some (s !! k)
      /\ exists e', fst (fst (callback cfg prov q now s)) = <[k := e']> s
                    /\ Entry.terminal e' = true
  | None => fst (fst (callback cfg prov q now s)) = s
  end.
Proof.
  destruct (known s (q_state q)) as [k|] eqn:Hk.
  - split; [by apply known_Some in Hk as (_ & _ & ?)|].
    destruct (callback_known cfg prov q now s k Hk) as (e' & He & Ht & _). eauto.
  - by apply callback_unknown.
Qed.

(** C3. Audience binding.  For a [callback] invocation with a known state,
    when the token endpoint returns an identity token and the verified
    audience is not identical to the configured client identifier, the record
    ends with status error and not with status complete.  When the exchange
    is reached (no error parameter, a code present) it counts as failed: the
    cause is "Token audience mismatch" and the failure page is rendered.  The
    store write is the same whatever the store holds when the awaited calls
    return. *)
Theorem callback_audience_mismatch (cfg : config) (prov : provider) (q : query)
    (now : Z) (s : store) (k : string) (tokenData verified : list (string * jsval)) :
  known s (q_state q) = Some k ->
  token prov (request_for cfg (q_code q)) = Resolved tokenData ->
  truthy (get "id_token" tokenData) = true ->
  tokeninfo prov (get "id_token" tokenData) = Resolved verified ->
  strict_eq (get "aud" verified) (of_env (CLIENT_ID cfg)) = false ->
  Entry.status <$> fst (fst (callback cfg prov q now s)) !! k = Some Entry.error
  /\ Entry.status <$> fst (fst (callback cfg prov q now s)) !! k <> Some Entry.complete
  /\ (truthy (q_error q) = false -> truthy (q_code q) = true ->
        callback cfg prov q now s
        = (<[k := error_entry (JStr "Token audience mismatch") now]> s,
           send (popupClosePage (AuthenticationFailed (JStr "Token audience mismatch")) false),
           [PostToken (request_for cfg (q_code q));
            GetTokenInfo (get "id_token" tokenData)]))
  /\ (forall s2 t, fst (callback_settle k (snd (exchange cfg prov (q_code q))) t s2)
                   = <[k := error_entry (JStr "Token audience mismatch") t]> s2).
Proof.
  intros Hk Htok Hid Hinfo Haud.
  assert (exchange cfg prov (q_code q)
          = ([PostToken (request_for cfg (q_code q)); GetTokenInfo (get "id_token" tokenData)],
             Rejected (new_Error "Token audience mismatch"))) as Hex.
  { unfold exchange. by rewrite Htok, Hid, Hinfo, Haud. }
  assert (Entry.status <$> fst (fst (callback cfg prov q now s)) !! k = Some Entry.error)
    as Hstatus.
  { unfold callback, callback_enter. rewrite Hk.
    destruct (truthy (q_error q)); [|destruct (truthy (q_code q))]; cbn [negb fst].
    - by rewrite lookup_insert_eq.
    - rewrite Hex. cbn. by rewrite lookup_insert_eq.
    - by rewrite lookup_insert_eq. }
  split; [exact Hstatus|]. split; [rewrite Hstatus; discriminate|]. split.
  - intros Herr Hcode. unfold callback, callback_enter.
    rewrite Herr, Hk, Hcode. cbn [negb]. by rewrite Hex.
  - intros s2 t. by rewrite Hex.
Qed.

Lemma callback_audience_mismatch_witness :
  known store_pending (q_state q_code_X) = Some "X"
  /\ strict_eq (JStr "client-2") (of_env (CLIENT_ID cfg0)) = false
  /\ Entry.status <$> fst (fst (callback cfg0 prov_other_aud q_code_X 7 store_pending)) !! "X"
     = Some Entry.error.
Proof.
  split; [reflexivity|]. split; [reflexivity|].
  apply (callback_audience_mismatch cfg0 prov_other_aud q_code_X 7 store_pending "X"
           [("access_token", JStr "T"); ("id_token", JStr "I")]
           [("aud", JStr "client-2"); ("sub", JStr "42")]);
    reflexivity.
Defined.

(** C10. When [callback] reaches the exchange for a known state and the token
    endpoint answers without an identity token, one outbound call is made
    (no verification call, hence no audience comparison), the record becomes
    complete with [user] null, and the next [status] call answers
    [{status: 'complete', ..., user: null}]. *)
Theorem callback_without_id_token (cfg : config) (prov : provider) (q : query)
    (now : Z) (s : store) (k : string) (tokenData : list (string * jsval)) :
  truthy (q_error q) = false ->
  known s (q_state q) = Some k ->
  truthy (q_code q) = true ->
  token prov (request_for cfg (q_code q)) = Resolved tokenData ->
  truthy (get "id_token" tokenData) = false ->
  callback cfg prov q now s
  = (<[k := complete_entry tokenData JNull now]> s, success_page,
     [PostToken (request_for cfg (q_code q))])
  /\ status k (<[k := complete_entry tokenData JNull now]> s)
     = (delete k s,
        json (JObj [("status", JStr "complete");
                    ("access_token", get "access_token" tokenData);
                    ("refresh_token", get "refresh_token" tokenData);
                    ("id_token", get "id_token" tokenData);
                    ("expires_in", get "expires_in" tokenData);
                    ("user", JNull)])).
Proof.
  intros Herr Hk Hcode Htok Hid. split.
  - unfold callback, callback_enter. rewrite Herr, Hk, Hcode. cbn [negb].
    unfold exchange. fold (request_for cfg (q_code q)). by rewrite Htok, Hid.
  - unfold status. rewrite lookup_insert_eq. cbn. by rewrite delete_insert_eq.
Qed.

Lemma callback_without_id_token_witness :
  known store_pending (q_state q_code_X) = Some "X"
  /\ get "id_token" [("access_token", JStr "T"); ("expires_in", JNum 3599)] = JUndef
  /\ callback cfg0 prov_no_id q_code_X 3 store_pending
     = (<["X" := complete_entry [("access_token", JStr "T"); ("expires_in", JNum 3599)]
                                JNull 3]> store_pending,
        success_page, [PostToken (request_for cfg0 (JStr "c"))]).
Proof.
  split; [reflexivity|]. split; [reflexivity|].
  apply (callback_without_id_token cfg0 prov_no_id q_code_X 3 store_pending "X"
           [("access_token", JStr "T"); ("expires_in", JNum 3599)]);
    reflexivity.
Defined.

(** C9. Every store write of [callback] replaces the whole record by a new
    terminal one whose [createdAt] is the time of the write; nothing of the
    old record (its creation time included) is kept.  The new record
    therefore survives every sweep up to 5 minutes after the callback and
    stays readable through [status]; when the old record was created before
    the callback, the new one is still in the store at a sweep time at which
    the old one would have been deleted. *)
Theorem callback_restarts_ttl (cfg : config) (prov : provider) (q : query)
    (now : Z) (s : store) (k : string) (e0 : Entry.t) :
  known s (q_state q) = Some k ->
  s !! k = Some e0 ->
  exists e',
    fst (fst (callback cfg prov q now s)) = <[k := e']> s
    /\ Entry.terminal e' = true
    /\ Entry.createdAt e' = now
    /\ ((exists cause, e' = error_entry cause now)
        \/ (exists tokenData user, e' = complete_entry tokenData user now))
    /\ (forall t, (t - now <= AUTH_TTL_MS)%Z ->
          sweep t (<[k := e']> s) !! k = Some e'
          /\ code (snd (status k (sweep t (<[k := e']> s)))) = 200%Z
          /\ snd (status k (sweep t (<[k := e']> s))) = snd (status k (<[k := e']> s)))
    /\ ((Entry.createdAt e0 < now)%Z ->
          (now + AUTH_TTL_MS - Entry.createdAt e0 > AUTH_TTL_MS)%Z
          /\ sweep (now + AUTH_TTL_MS) s !! k = None
          /\ sweep (now + AUTH_TTL_MS) (<[k := e']> s) !! k = Some e').
Proof.
  intros Hk H0.
  destruct (callback_known cfg prov q now s k Hk) as (e' & He & Ht & Hc & Hform).
  exists e'. repeat split; try assumption.
  - rewrite sweep_lookup, lookup_insert_eq.
    assert (expired t e' = false) as ->; [|reflexivity].
    apply expired_le. unfold AUTH_TTL_MS in *. lia.
  - unfold status. rewrite sweep_lookup, lookup_insert_eq.
    assert (expired t e' = false) as ->.
    { apply expired_le. unfold AUTH_TTL_MS in *. lia. }
    destruct (Entry.status e') eqn:Hs; [|reflexivity..].
    unfold Entry.terminal in Ht. by rewrite Hs in Ht.
  - unfold status. rewrite sweep_lookup, !lookup_insert_eq.
    assert (expired t e' = false) as ->.
    { apply expired_le. unfold AUTH_TTL_MS in *. lia. }
    by destruct (Entry.status e').
  - lia.
  - rewrite sweep_lookup, H0.
    assert (expired (now + AUTH_TTL_MS) e0 = true) as ->; [|reflexivity].
    apply expired_gt. unfold AUTH_TTL_MS. lia.
  - rewrite sweep_lookup, lookup_insert_eq.
    assert (expired (now + AUTH_TTL_MS) e' = false) as ->; [|reflexivity].
    apply expired_le. unfold AUTH_TTL_MS. lia.
Qed.

Lemma callback_restarts_ttl_witness :
  known store_pending (q_state q_denied) = Some "X"
  /\ store_pending !! "X" = Some (pending_entry 0)
  /\ exists e', fst (fst (callback cfg0 prov_no_id q_denied 200000 store_pending))
                = <["X" := e']> store_pending
                /\ Entry.createdAt e' = 200000%Z
                /\ sweep 500000 store_pending !! "X" = None
                /\ sweep 500000 (<["X" := e']> store_pending) !! "X" = Some e'.
Proof.
  split; [reflexivity|]. split; [reflexivity|].
  destruct (callback_restarts_ttl cfg0 prov_no_id q_denied 200000 store_pending "X"
              (pending_entry 0) eq_refl eq_refl)
    as (e' & He & _ & Hc & _ & _ & Hlate).
  exists e'. split; [exact He|]. split; [exact Hc|].
  destruct Hlate as (_ & Hold & Hnew); [cbn; lia|]. split; assumption.
Defined.

(* ===================================================================== *)
(** ** Properties of the query-string serializer *)
(* ===================================================================== *)

Lemma append_cons (c : ascii) (a b : string) : String c a ++ b = String c (a ++ b).
Proof. reflexivity. Qed.

Lemma append_nil (b : string) : "" ++ b = b.
Proof. reflexivity. Qed.

Lemma has_char_app (x : ascii) (a b : string) :
  has_char x (a ++ b) = has_char x a || has_char x b.
Proof.
  induction a as [|c a IH]; [reflexivity|].
  rewrite append_cons. cbn [has_char]. by rewrite IH, orb_assoc.
Qed.

Lemma encode_byte_clean (c : ascii) :
  has_char "&" (Url.encode_byte c) = false /\ has_char "=" (Url.encode_byte c) = false.
Proof. destruct c as [[] [] [] [] [] [] [] []]; split; reflexivity. Qed.

Lemma urlencode_clean (s : string) :
  has_char "&" (Url.urlencode s) = false /\ has_char "=" (Url.urlencode s) = false.
Proof.
  induction s as [|c s [IH1 IH2]]; [by split|].
  cbn [Url.urlencode]. rewrite !has_char_app, IH1, IH2.
  by destruct (encode_byte_clean c) as [-> ->].
Qed.

Lemma split_on_clean (sep : ascii) (a : string) :
  has_char sep a = false -> Url.split_on sep a = [a].
Proof.
  induction a as [|c a IH]; [reflexivity|].
  cbn. destruct (Ascii.eqb c sep); [discriminate|]. cbn. intros H. by rewrite IH.
Qed.

Lemma split_on_app (sep : ascii) (a b : string) :
  has_char sep a = false ->
  Url.split_on sep (a ++ String sep b) = a :: Url.split_on sep b.
Proof.
  induction a as [|c a IH].
  - intros _. rewrite append_nil. cbn. by rewrite Ascii.eqb_refl.
  - rewrite append_cons. cbn. destruct (Ascii.eqb c sep); [discriminate|].
    cbn. intros H. by rewrite IH.
Qed.

Lemma cut_first_app (sep : ascii) (a b : string) :
  has_char sep a = false -> Url.cut_first sep (a ++ String sep b) = (a, b).
Proof.
  induction a as [|c a IH].
  - intros _. rewrite append_nil. cbn. by rewrite Ascii.eqb_refl.
  - rewrite append_cons. cbn. destruct (Ascii.eqb c sep); [discriminate|].
    cbn. intros H. by rewrite IH.
Qed.

Lemma urldecode_encode_byte (c : ascii) (r : string) :
  Url.urldecode (Url.encode_byte c ++ r) = String c (Url.urldecode r).
Proof. destruct c as [[] [] [] [] [] [] [] []]; reflexivity. Qed.

Lemma urldecode_urlencode (s : string) : Url.urldecode (Url.urlencode s) = s.
Proof.
  induction s as [|c s IH]; [reflexivity|].
  cbn [Url.urlencode]. by rewrite urldecode_encode_byte, IH.
Qed.

Lemma encode_pair_clean (p : string * string) :
  has_char "&" (Url.encode_pair p) = false /\ Url.nonempty (Url.encode_pair p) = true.
Proof.
  unfold Url.encode_pair. split.
  - rewrite !has_char_app.
    destruct (urlencode_clean (fst p)) as [-> _].
    by destruct (urlencode_clean (snd p)) as [-> _].
  - by destruct (Url.urlencode (fst p)).
Qed.

Lemma parse_pair (p : string * string) :
  (let '(n, v) := Url.cut_first "=" (Url.encode_pair p) in
   (Url.urldecode n, Url.urldecode v)) = p.
Proof.
  destruct p as [k v]. unfold Url.encode_pair. cbn [fst snd].
  change ("=" ++ Url.urlencode v) with (String "=" (Url.urlencode v)).
  rewrite cut_first_app by apply urlencode_clean.
  by rewrite !urldecode_urlencode.
Qed.

(** Parsing what the serializer wrote gives back the pairs, in order. *)
Lemma parse_query_to_query (l : list (string * string)) :
  Url.parse_query (Url.to_query l) = l.
Proof.
  induction l as [|p l IH]; [reflexivity|].
  destruct (encode_pair_clean p) as [Hamp Hne].
  destruct l as [|p' l'].
  - unfold Url.parse_query. cbn [Url.to_query].
    rewrite split_on_clean by exact Hamp.
    cbn [List.filter]. rewrite Hne. cbn [List.map]. by rewrite parse_pair.
  - unfold Url.parse_query in *.
    change (Url.to_query (p :: p' :: l'))
      with (Url.encode_pair p ++ String "&" (Url.to_query (p' :: l'))).
    rewrite split_on_app by exact Hamp.
    cbn [List.filter]. rewrite Hne. cbn [List.map]. by rewrite parse_pair, IH.
Qed.

(* ===================================================================== *)
(** ** Properties of the poll controller *)
(* ===================================================================== *)

Lemma period_inactive (st : string) (o : outcome AuthStatusResponse.t) (c : ctrl) :
  pollInterval c = None -> period st o c = c.
Proof. intros H. unfold period. by rewrite H. Qed.

(** One period of a live timer: past the budget it stops with the timeout
    message and makes no call; otherwise it makes one call, and stops exactly
    when the answer is terminal. *)
Lemma period_active (st : string) (o : outcome AuthStatusResponse.t) (c : ctrl)
    (id : positive) :
  pollInterval c = Some id ->
  if (MAX_POLL_ATTEMPTS <=? pollCount c)%nat then
    pollInterval (period st o c) = None
    /\ checks (period st o c) = checks c
    /\ surfaces (period st o c) = SetAuthState timed_out :: surfaces c
  else
    checks (period st o c) = S (checks c)
    /\ if terminal_response o then
         pollInterval (period st o c) = None
         /\ exists r, o = Resolved r
                      /\ surfaces (period st o c) = SetAuthState (surfaced r) :: surfaces c
                      /\ authState (period st o c) = surfaced r
       else
         pollInterval (period st o c) = Some id
         /\ pollCount (period st o c) = S (pollCount c)
         /\ surfaces (period st o c) = surfaces c
         /\ authState (period st o c) = authState c.
Proof.
  destruct c as [pc pi a tr]. cbn [pollInterval]. intros ->.
  unfold period, tick_head. cbn [pollInterval pollCount authState trace].
  destruct (Nat.leb_spec MAX_POLL_ATTEMPTS pc) as [Hge|Hlt];
    destruct (Nat.ltb_spec MAX_POLL_ATTEMPTS (pc + 1)) as [Hlt'|Hge']; try lia.
  - by cbn.
  - destruct o as [r|e].
    + unfold terminal_response, tick_tail, handleAuthComplete, surfaced.
      destruct (AuthStatusResponse.status r) eqn:Hs; cbn;
        [repeat split; lia|..];
        (split; [reflexivity|]); (split; [reflexivity|]);
        exists r; rewrite Hs; by repeat split.
    + cbn. repeat split. lia.
Qed.

Lemma run_inactive (stub : nat -> outcome AuthStatusResponse.t) (st : string)
    (n : nat) (c : ctrl) :
  pollInterval c = None -> run stub st n c = c.
Proof.
  intros H. induction n as [|n IH]; [reflexivity|].
  cbn [run]. by rewrite period_inactive.
Qed.

Lemma run_add (stub : nat -> outcome AuthStatusResponse.t) (st : string)
    (n m : nat) (c : ctrl) :
  run stub st (n + m) c = run stub st m (run stub st n c).
Proof.
  revert c. induction n as [|n IH]; intros c; [reflexivity|].
  cbn [Nat.add run]. apply IH.
Qed.





(** While the answers are not terminal and the budget lasts, every period
    makes one more call and nothing is surfaced. *)
Lemma run_nonterminal (stub : nat -> outcome AuthStatusResponse.t) (st : string)
    (id : positive) (n : nat) (c : ctrl) :
  pollInterval c = Some id ->
  pollCount c = checks c ->
  (checks c + n <= MAX_POLL_ATTEMPTS)%nat ->
  (forall i, (checks c <= i < checks c + n)%nat -> terminal_response (stub i) = false) ->
  pollInterval (run stub st n c) = Some id
  /\ pollCount (run stub st n c) = checks (run stub st n c)
  /\ checks (run stub st n c) = (checks c + n)%nat
  /\ surfaces (run stub st n c) = surfaces c.
Proof.
  revert c. induction n as [|n IH]; intros c Hint Hpc Hle Hstub.
  - cbn [run]. repeat split; [exact Hint|exact Hpc|lia].
  - cbn [run].
    pose proof (period_active st (stub (checks c)) c id Hint) as Hp.
    destruct (Nat.leb_spec MAX_POLL_ATTEMPTS (pollCount c)) as [Hge|Hlt]; [lia|].
    rewrite (Hstub (checks c)) in Hp by lia.
    destruct Hp as (Hch & Hint' & Hpc' & Hsf & _).
    destruct (IH (period st (stub (checks c)) c)) as (H1 & H2 & H3 & H4).
    + exact Hint'.
    + rewrite Hpc', Hch. lia.
    + rewrite Hch. lia.
    + intros i Hi. apply Hstub. rewrite Hch in Hi. lia.
    + repeat split; [exact H1|exact H2|rewrite H3, Hch; lia|by rewrite H4].
Qed.

Lemma startPolling_ready (id : positive) (a : AuthState.t) :
  pollInterval (startPolling id (ready a)) = Some id
  /\ pollCount (startPolling id (ready a)) = 0%nat
  /\ checks (startPolling id (ready a)) = 0%nat
  /\ surfaces (startPolling id (ready a)) = [].
Proof. by repeat split. Qed.

(** The call number [k] is the first with a terminal answer: the run stops
    there. *)
Lemma run_first_terminal (stub : nat -> outcome AuthStatusResponse.t) (st : string)
    (id : positive) (a : AuthState.t) (k : nat) (r : AuthStatusResponse.t) (m : nat) :
  (k < MAX_POLL_ATTEMPTS)%nat ->
  (forall i, (i < k)%nat -> terminal_response (stub i) = false) ->
  stub k = Resolved r ->
  terminal_response (Resolved r) = true ->
  checks (run stub st (k + 1 + m) (startPolling id (ready a))) = (k + 1)%nat
  /\ pollInterval (run stub st (k + 1 + m) (startPolling id (ready a))) = None
  /\ surfaces (run stub st (k + 1 + m) (startPolling id (ready a)))
     = [SetAuthState (surfaced r)]
  /\ authState (run stub st (k + 1 + m) (startPolling id (ready a))) = surfaced r.
Proof.
  intros Hk Hbefore Hstub Hterm.
  destruct (startPolling_ready id a) as (Hint & Hpc & Hch & Hsf).
  destruct (run_nonterminal stub st id k (startPolling id (ready a)))
    as (Hint' & Hpc' & Hch' & Hsf');
    [exact Hint|by rewrite Hpc, Hch|rewrite Hch; lia| |].
  { intros i Hi. apply Hbefore. rewrite Hch in Hi. lia. }
  rewrite Hch in Hch'. rewrite Hsf in Hsf'. cbn [Nat.add] in Hch'.
  rewrite !run_add. set (ck := run stub st k (startPolling id (ready a))) in *.
  cbn [run]. rewrite Hch', Hstub.
  pose proof (period_active st (Resolved r) ck id Hint') as Hp.
  destruct (Nat.leb_spec MAX_POLL_ATTEMPTS (pollCount ck)) as [Hge|Hlt]; [lia|].
  rewrite Hterm in Hp. destruct Hp as (Hc1 & Hnone & r' & [= <-] & Hs1 & Ha1).
  rewrite run_inactive by exact Hnone.
  repeat split; [rewrite Hc1, Hch'; lia|exact Hnone|by rewrite Hs1, Hsf'|exact Ha1].
Qed.

(* ===================================================================== *)
(** ** Further properties of the server *)
(* ===================================================================== *)

(** *** The state-token *)

Lemma hex_pair (c : ascii) (r : string) :
  is_hex_lower (Url.hex_lower (N_of_ascii c / 16)) = true
  /\ is_hex_lower (Url.hex_lower (N_of_ascii c mod 16)) = true
  /\ bytes_of_hex (String (Url.hex_lower (N_of_ascii c / 16))
                     (String (Url.hex_lower (N_of_ascii c mod 16)) r))
     = c :: bytes_of_hex r
  /\ Url.urlencode (String (Url.hex_lower (N_of_ascii c / 16))
                      (String (Url.hex_lower (N_of_ascii c mod 16)) r))
     = String (Url.hex_lower (N_of_ascii c / 16))
         (String (Url.hex_lower (N_of_ascii c mod 16)) (Url.urlencode r)).
Proof. destruct c as [[] [] [] [] [] [] [] []]; repeat split; reflexivity. Qed.

Lemma hex_of_bytes_length (rand : list ascii) :
  String.length (Url.hex_of_bytes rand) = (2 * length rand)%nat.
Proof.
  induction rand as [|c r IH]; [reflexivity|].
  cbn [Url.hex_of_bytes String.length length]. rewrite IH. lia.
Qed.

Lemma hex_of_bytes_chars (rand : list ascii) :
  all_chars is_hex_lower (Url.hex_of_bytes rand) = true.
Proof.
  induction rand as [|c r IH]; [reflexivity|].
  cbn [Url.hex_of_bytes all_chars].
  destruct (hex_pair c "") as (-> & -> & _). exact IH.
Qed.

Lemma bytes_of_hex_of_bytes (rand : list ascii) :
  bytes_of_hex (Url.hex_of_bytes rand) = rand.
Proof.
  induction rand as [|c r IH]; [reflexivity|].
  cbn [Url.hex_of_bytes].
  destruct (hex_pair c (Url.hex_of_bytes r)) as (_ & _ & -> & _). by rewrite IH.
Qed.

Lemma urlencode_hex_of_bytes (rand : list ascii) :
  Url.urlencode (Url.hex_of_bytes rand) = Url.hex_of_bytes rand.
Proof.
  induction rand as [|c r IH]; [reflexivity|].
  cbn [Url.hex_of_bytes].
  destruct (hex_pair c (Url.hex_of_bytes r)) as (_ & _ & _ & ->). by rewrite IH.
Qed.

Lemma append_assoc_s (a b c : string) : (a ++ b) ++ c = a ++ (b ++ c).
Proof.
  induction a as [|x a IH]; [reflexivity|].
  by rewrite !append_cons, IH.
Qed.

Lemma start_configured (cfg : config) (rand : list ascii) (now : Z) (s : store) :
  truthy (of_env (CLIENT_ID cfg)) = true ->
  fst (start cfg rand now s) = <[Url.hex_of_bytes rand := pending_entry now]> s.
Proof. intros H. unfold start. by rewrite H. Qed.

(** X1. The token [start] returns is the lowercase hex form of the random
    bytes: two digits a byte (64 characters for 32 bytes), nothing but
    [0-9a-f], and its form-urlencoding is the token itself, so it stands
    unescaped in [popupUrl]. *)
Theorem start_token_shape (cfg : config) (rand : list ascii) (now : Z) (s : store) :
  truthy (of_env (CLIENT_ID cfg)) = true ->
  exists state popupUrl,
    snd (start cfg rand now s)
    = json (JObj [("state", JStr state); ("popupUrl", JStr popupUrl)])
    /\ String.length state = (2 * length rand)%nat
    /\ all_chars is_hex_lower state = true
    /\ bytes_of_hex state = rand
    /\ Url.query_of popupUrl
       = Url.to_query [ ("client_id", env_string (CLIENT_ID cfg));
                        ("redirect_uri", CALLBACK_URI cfg);
                        ("response_type", "code");
                        ("scope", "openid email profile") ]
         ++ "&state=" ++ state ++ "&access_type=offline&prompt=consent".
Proof.
  intros Hcfg. unfold start. rewrite Hcfg. cbn [negb snd].
  eexists _, _. split; [reflexivity|].
  split; [apply hex_of_bytes_length|]. split; [apply hex_of_bytes_chars|].
  split; [apply bytes_of_hex_of_bytes|].
  change ("?" ++ ?x) with (String "?" x).
  unfold Url.query_of. rewrite cut_first_app by reflexivity. cbn [snd].
  unfold start_params. cbn [Url.to_query]. unfold Url.encode_pair at 5. cbn [fst snd].
  rewrite urlencode_hex_of_bytes.
  rewrite !append_assoc_s. reflexivity.
Qed.

Lemma start_token_shape_witness :
  truthy (of_env (CLIENT_ID cfg0)) = true
  /\ length rand32 = 32%nat
  /\ exists state popupUrl,
       snd (start cfg0 rand32 0 ∅)
       = json (JObj [("state", JStr state); ("popupUrl", JStr popupUrl)])
       /\ String.length state = 64%nat.
Proof.
  split; [reflexivity|]. split; [reflexivity|].
  destruct (start_token_shape cfg0 rand32 0 ∅ eq_refl) as (st & url & H1 & H2 & _).
  exists st, url. split; [exact H1|exact H2].
Defined.

(** X2. Different random bytes give different tokens, and then two starts
    leave two pending records, each under its own token, whatever the store
    held before.  The same bytes drawn again give the same token: the second
    [start] then replaces the record that is there, whatever its status, by a
    pending one. *)
Theorem start_tokens_distinct (cfg : config) (rand1 rand2 : list ascii)
    (t1 t2 : Z) (s : store) :
  truthy (of_env (CLIENT_ID cfg)) = true ->
  (rand1 <> rand2 ->
     Url.hex_of_bytes rand1 <> Url.hex_of_bytes rand2
     /\ fst (start cfg rand2 t2 (fst (start cfg rand1 t1 s))) !! Url.hex_of_bytes rand1
        = Some (pending_entry t1)
     /\ fst (start cfg rand2 t2 (fst (start cfg rand1 t1 s))) !! Url.hex_of_bytes rand2
        = Some (pending_entry t2))
  /\ (forall e, fst (start cfg rand1 t2 (<[Url.hex_of_bytes rand1 := e]> s))
                = <[Url.hex_of_bytes rand1 := pending_entry t2]> s).
Proof.
  intros Hcfg. split.
  - intros Hne.
    assert (Url.hex_of_bytes rand1 <> Url.hex_of_bytes rand2) as Htok.
    { intros Heq. apply Hne.
      by rewrite <- (bytes_of_hex_of_bytes rand1), Heq, bytes_of_hex_of_bytes. }
    rewrite !start_configured by exact Hcfg. split; [exact Htok|]. split.
    + rewrite lookup_insert_ne by congruence. apply lookup_insert_eq.
    + apply lookup_insert_eq.
  - intros e. rewrite start_configured by exact Hcfg. apply insert_insert_eq.
Qed.

Lemma start_tokens_distinct_witness :
  truthy (of_env (CLIENT_ID cfg0)) = true
  /\ rand32 <> rand32'
  /\ Url.hex_of_bytes rand32 <> Url.hex_of_bytes rand32'
  /\ size (fst (start cfg0 rand32' 2 (fst (start cfg0 rand32 1 ∅)))) = 2%nat.
Proof.
  assert (rand32 <> rand32') as Hne by discriminate.
  split; [reflexivity|]. split; [exact Hne|].
  destruct (start_tokens_distinct cfg0 rand32 rand32' 1 2 ∅ eq_refl) as [Hd _].
  destruct (Hd Hne) as (Htok & _). split; [exact Htok|reflexivity].
Defined.

(** X3. A session just started can be polled and called back: for a token of
    at least one byte, the record is known to [callback], [status] answers
    pending and changes nothing, and both still hold after any sweep up to 5
    minutes after the start. *)
Theorem start_then_poll (cfg : config) (rand : list ascii) (now t : Z) (s : store) :
  truthy (of_env (CLIENT_ID cfg)) = true ->
  rand <> [] ->
  (t - now <= AUTH_TTL_MS)%Z ->
  known (fst (start cfg rand now s)) (JStr (Url.hex_of_bytes rand))
  = Some (Url.hex_of_bytes rand)
  /\ status (Url.hex_of_bytes rand) (fst (start cfg rand now s))
     = (fst (start cfg rand now s), json (JObj [("status", JStr "pending")]))
  /\ known (sweep t (fst (start cfg rand now s))) (JStr (Url.hex_of_bytes rand))
     = Some (Url.hex_of_bytes rand)
  /\ status (Url.hex_of_bytes rand) (sweep t (fst (start cfg rand now s)))
     = (sweep t (fst (start cfg rand now s)), json (JObj [("status", JStr "pending")])).
Proof.
  intros Hcfg Hrand Hage. rewrite start_configured by exact Hcfg.
  assert (Url.hex_of_bytes rand <> "") as Hne.
  { destruct rand as [|c r]; [done|discriminate]. }
  assert (sweep t (<[Url.hex_of_bytes rand := pending_entry now]> s)
            !! Url.hex_of_bytes rand = Some (pending_entry now)) as Hkept.
  { rewrite sweep_lookup, lookup_insert_eq.
    assert (expired t (pending_entry now) = false) as ->; [|reflexivity].
    apply expired_le. unfold AUTH_TTL_MS in Hage.
    unfold pending_entry. cbn [Entry.createdAt]. lia. }
  repeat split.
  - apply known_Some. repeat split; [exact Hne|]. rewrite lookup_insert_eq. eauto.
  - unfold status. by rewrite lookup_insert_eq.
  - apply known_Some. repeat split; [exact Hne|]. rewrite Hkept. eauto.
  - unfold status. by rewrite Hkept.
Qed.

Lemma start_then_poll_witness :
  truthy (of_env (CLIENT_ID cfg0)) = true
  /\ rand0 <> []
  /\ (300000 - 0 <= AUTH_TTL_MS)%Z
  /\ snd (status (Url.hex_of_bytes rand0) (sweep 300000 (fst (start cfg0 rand0 0 ∅))))
     = json (JObj [("status", JStr "pending")]).
Proof.
  assert (rand0 <> []) as Hne by discriminate.
  assert (300000 - 0 <= AUTH_TTL_MS)%Z as Hage by (unfold AUTH_TTL_MS; lia).
  split; [reflexivity|]. split; [exact Hne|]. split; [exact Hage|].
  destruct (start_then_poll cfg0 rand0 0 300000 ∅ eq_refl Hne Hage) as (_ & _ & _ & ->).
  reflexivity.
Defined.

(** *** The sweep, composed *)

(** X4. The sweep loop is the filter that keeps the records not yet expired.
    Sweeping twice at the same time is sweeping once, and a sweep makes every
    earlier sweep redundant: sweeping at [t1] and then at a later [t2] leaves
    the same store as sweeping at [t2] alone. *)
Theorem sweep_composes (t1 t2 : Z) (s : store) :
  sweep t1 s = filter (fun kv => expired t1 (snd kv) = false) s
  /\ sweep t1 (sweep t1 s) = sweep t1 s
  /\ ((t1 <= t2)%Z -> sweep t2 (sweep t1 s) = sweep t2 s).
Proof.
  split; [|split].
  - apply map_eq. intros k. rewrite sweep_lookup, map_lookup_filter.
    destruct (s !! k) as [e|]; [|reflexivity]. cbn.
    destruct (expired t1 e) eqn:He.
    + rewrite option_guard_False; [reflexivity|]. cbn. congruence.
    + by rewrite option_guard_True.
  - apply map_eq. intros k. rewrite !sweep_lookup.
    destruct (s !! k) as [e|]; [|reflexivity].
    destruct (expired t1 e) eqn:He; [reflexivity|]. by rewrite He.
  - intros Hle. apply map_eq. intros k. rewrite !sweep_lookup.
    destruct (s !! k) as [e|]; [|reflexivity].
    destruct (expired t1 e) eqn:He1; [|reflexivity].
    assert (expired t2 e = true) as ->; [|reflexivity].
    apply expired_gt. apply expired_gt in He1. lia.
Qed.

Lemma sweep_composes_witness :
  (100 <= 400000)%Z
  /\ sweep 400000 (sweep 100 store_pending) = sweep 400000 store_pending
  /\ sweep 400000 store_pending = ∅.
Proof.
  assert (100 <= 400000)%Z as Hle by lia.
  split; [exact Hle|].
  destruct (sweep_composes 100 400000 store_pending) as (_ & _ & H).
  split; [exact (H Hle)|reflexivity].
Defined.

(** *** [callback], branch by branch *)

Lemma known_None (s : store) (state : jsval) :
  (forall k, state = JStr k -> k = "" \/ s !! k = None) -> known s state = None.
Proof.
  intros H. destruct (known s state) as [k|] eqn:Hk; [|reflexivity].
  apply known_Some in Hk as (-> & Hne & [e He]).
  destruct (H k eq_refl) as [?|Hnone]; [done|congruence].
Qed.

(** X5. Without an error parameter, a [callback] whose [state] is missing,
    empty, not a string, or a string with no record is refused with code 400
    and the page "Invalid or expired state."; the store is unchanged and no
    call to the provider is made, even when a code is present. *)
Theorem callback_unknown_state_refused (cfg : config) (prov : provider) (q : query)
    (now : Z) (s : store) :
  truthy (q_error q) = false ->
  (forall k, q_state q = JStr k -> k = "" \/ s !! k = None) ->
  callback cfg prov q now s
  = (s, status_send 400 (popupClosePage (Text "Invalid or expired state.") false), []).
Proof.
  intros Herr Hstate. unfold callback, callback_enter.
  by rewrite Herr, (known_None s (q_state q) Hstate).
Qed.

Lemma callback_unknown_state_refused_witness :
  truthy (q_error q_array_state) = false
  /\ store_pending !! "X" = Some (pending_entry 0)
  /\ callback cfg0 prov_ok q_array_state 5 store_pending
     = (store_pending,
        status_send 400 (popupClosePage (Text "Invalid or expired state.") false), []).
Proof.
  split; [reflexivity|]. split; [reflexivity|].
  apply (callback_unknown_state_refused cfg0 prov_ok q_array_state 5 store_pending eq_refl).
  intros k Hk. discriminate Hk.
Defined.

(** X6. Without an error parameter and without a code, a [callback] for a
    known state makes no call to the provider, replaces the record by an
    error record with cause "No authorization code received" and renders the
    failure page with code 200; the next [status] call delivers that error
    and removes the record. *)
Theorem callback_missing_code (cfg : config) (prov : provider) (q : query)
    (now : Z) (s : store) (k : string) :
  truthy (q_error q) = false ->
  known s (q_state q) = Some k ->
  truthy (q_code q) = false ->
  callback cfg prov q now s
  = (<[k := error_entry (JStr "No authorization code received") now]> s,
     send (popupClosePage (Text "No authorization code received.") false), [])
  /\ status k (fst (fst (callback cfg prov q now s)))
     = (delete k s,
        json (JObj [("status", JStr "error");
                    ("error", JStr "No authorization code received")])).
Proof.
  intros Herr Hk Hcode.
  assert (callback cfg prov q now s
          = (<[k := error_entry (JStr "No authorization code received") now]> s,
             send (popupClosePage (Text "No authorization code received.") false), []))
    as Hcb.
  { unfold callback, callback_enter. by rewrite Herr, Hk, Hcode. }
  split; [exact Hcb|]. rewrite Hcb. cbn [fst].
  unfold status. rewrite lookup_insert_eq. cbn. by rewrite delete_insert_eq.
Qed.

Lemma callback_missing_code_witness :
  truthy (q_error q_no_code) = false
  /\ known store_pending (q_state q_no_code) = Some "X"
  /\ truthy (q_code q_no_code) = false
  /\ status "X" (fst (fst (callback cfg0 prov_ok q_no_code 5 store_pending)))
     = (∅, json (JObj [("status", JStr "error");
                       ("error", JStr "No authorization code received")])).
Proof.
  split; [reflexivity|]. split; [reflexivity|]. split; [reflexivity|].
  destruct (callback_missing_code cfg0 prov_ok q_no_code 5 store_pending "X"
              eq_refl eq_refl eq_refl) as [_ ->].
  unfold store_pending. by rewrite delete_singleton_eq.
Defined.

Lemma cause_of_or_else (e : thrown) :
  or_else (error_description e)
          (or_else (JStr (message e)) (JStr "Token exchange failed"))
  = cause_of e.
Proof.
  unfold cause_of, or_else. destruct (truthy (error_description e)); [reflexivity|].
  cbn [truthy]. by destruct (String.eqb (message e) "").
Qed.

(** X7. When a call to the provider fails, [callback] records the failure:
    the cause is the provider's [error_description] when there is one, else
    the message of the thrown error when it is not empty, else "Token
    exchange failed".  A failed token request is the only call made; a failed
    verification comes after the token request.  In both cases the failure
    page shows the cause and the next [status] call delivers it. *)
Theorem callback_exchange_failure (cfg : config) (prov : provider) (q : query)
    (now : Z) (s : store) (k : string) (e : thrown) :
  truthy (q_error q) = false ->
  known s (q_state q) = Some k ->
  truthy (q_code q) = true ->
  (token prov (request_for cfg (q_code q)) = Rejected e
   \/ exists tokenData,
        token prov (request_for cfg (q_code q)) = Resolved tokenData
        /\ truthy (get "id_token" tokenData) = true
        /\ tokeninfo prov (get "id_token" tokenData) = Rejected e) ->
  fst (callback cfg prov q now s)
  = (<[k := error_entry (cause_of e) now]> s,
     send (popupClosePage (AuthenticationFailed (cause_of e)) false))
  /\ status k (fst (fst (callback cfg prov q now s)))
     = (delete k s, json (JObj [("status", JStr "error"); ("error", cause_of e)]))
  /\ (token prov (request_for cfg (q_code q)) = Rejected e ->
        snd (callback cfg prov q now s) = [PostToken (request_for cfg (q_code q))])
  /\ (forall tokenData,
        token prov (request_for cfg (q_code q)) = Resolved tokenData ->
        snd (callback cfg prov q now s)
        = [PostToken (request_for cfg (q_code q));
           GetTokenInfo (get "id_token" tokenData)]).
Proof.
  intros Herr Hk Hcode Hfail.
  assert (exists calls,
            exchange cfg prov (q_code q) = (calls, Rejected e)
            /\ (token prov (request_for cfg (q_code q)) = Rejected e ->
                  calls = [PostToken (request_for cfg (q_code q))])
            /\ (forall tokenData,
                  token prov (request_for cfg (q_code q)) = Resolved tokenData ->
                  calls = [PostToken (request_for cfg (q_code q));
                           GetTokenInfo (get "id_token" tokenData)]))
    as (calls & Hex & Hc1 & Hc2).
  { unfold exchange. destruct Hfail as [Ht|(td & Ht & Hid & Hv)]; rewrite Ht.
    - eexists. split; [reflexivity|]. split; [done|]. intros td [=].
    - rewrite Hid, Hv. eexists. split; [reflexivity|]. split; [intros [=]|].
      by intros td' [= <-]. }
  assert (callback cfg prov q now s
          = (<[k := error_entry (cause_of e) now]> s,
             send (popupClosePage (AuthenticationFailed (cause_of e)) false), calls))
    as Hcb.
  { unfold callback, callback_enter. rewrite Herr, Hk, Hcode. cbn [negb].
    rewrite Hex. unfold callback_settle. by rewrite cause_of_or_else. }
  rewrite Hcb. cbn [fst snd]. split; [reflexivity|]. split; [|split; assumption].
  unfold status. rewrite lookup_insert_eq. cbn. by rewrite delete_insert_eq.
Qed.

Lemma callback_exchange_failure_witness :
  truthy (q_error q_code_X) = false
  /\ known store_pending (q_state q_code_X) = Some "X"
  /\ truthy (q_code q_code_X) = true
  /\ status "X" (fst (fst (callback cfg0 prov_refuses q_code_X 5 store_pending)))
     = (∅, json (JObj [("status", JStr "error"); ("error", JStr "Bad Request")])).
Proof.
  split; [reflexivity|]. split; [reflexivity|]. split; [reflexivity|].
  destruct (callback_exchange_failure cfg0 prov_refuses q_code_X 5 store_pending "X"
              {| error_description := JStr "Bad Request";
                 message := "Request failed with status code 400" |}
              eq_refl eq_refl eq_refl (or_introl eq_refl)) as (_ & -> & _).
  unfold store_pending. by rewrite delete_singleton_eq.
Defined.

(** X8. When the exchange returns an identity token whose verified audience
    is identical to the client identifier, [callback] makes the two calls,
    records the session as complete with the four token fields of the
    exchange answer and the seven identity claims, and renders the success
    page; the next [status] call delivers all of it.  The claim
    [email_verified] is true only when the provider sent the string "true":
    a boolean [true] gives [false]. *)
Theorem callback_success_with_identity (cfg : config) (prov : provider) (q : query)
    (now : Z) (s : store) (k : string) (tokenData verified : list (string * jsval)) :
  truthy (q_error q) = false ->
  known s (q_state q) = Some k ->
  truthy (q_code q) = true ->
  token prov (request_for cfg (q_code q)) = Resolved tokenData ->
  truthy (get "id_token" tokenData) = true ->
  tokeninfo prov (get "id_token" tokenData) = Resolved verified ->
  strict_eq (get "aud" verified) (of_env (CLIENT_ID cfg)) = true ->
  callback cfg prov q now s
  = (<[k := complete_entry tokenData (user_of verified) now]> s, success_page,
     [PostToken (request_for cfg (q_code q)); GetTokenInfo (get "id_token" tokenData)])
  /\ status k (fst (fst (callback cfg prov q now s)))
     = (delete k s,
        json (JObj [("status", JStr "complete");
                    ("access_token", get "access_token" tokenData);
                    ("refresh_token", get "refresh_token" tokenData);
                    ("id_token", get "id_token" tokenData);
                    ("expires_in", get "expires_in" tokenData);
                    ("user", user_of verified)]))
  /\ (exists fields, user_of verified = JObj fields
        /\ map fst fields = ["sub"; "email"; "email_verified"; "name"; "picture";
                             "given_name"; "family_name"]
        /\ (forall f, f <> "email_verified" -> In f (map fst fields) ->
              get f fields = get f verified)
        /\ (get "email_verified" verified = JStr "true" ->
              get "email_verified" fields = JBool true)
        /\ (get "email_verified" verified <> JStr "true" ->
              get "email_verified" fields = JBool false)).
Proof.
  intros Herr Hk Hcode Htok Hid Hinfo Haud.
  assert (callback cfg prov q now s
          = (<[k := complete_entry tokenData (user_of verified) now]> s, success_page,
             [PostToken (request_for cfg (q_code q));
              GetTokenInfo (get "id_token" tokenData)])) as Hcb.
  { unfold callback, callback_enter. rewrite Herr, Hk, Hcode. cbn [negb].
    unfold exchange. by rewrite Htok, Hid, Hinfo, Haud. }
  split; [exact Hcb|]. rewrite Hcb. cbn [fst]. split.
  - unfold status. rewrite lookup_insert_eq. cbn. by rewrite delete_insert_eq.
  - eexists. split; [reflexivity|]. split; [reflexivity|]. split; [|split].
    + intros f Hf Hin. cbn in Hin.
      destruct Hin as [<-|[<-|[<-|[<-|[<-|[<-|[<-|[]]]]]]]]; try reflexivity. done.
    + intros ->. reflexivity.
    + intros Hne. cbn. f_equal.
      destruct (get "email_verified" verified) as [| |b|n|x|l|o]; try reflexivity.
      cbn. destruct (String.eqb_spec x "true") as [->|_]; [done|reflexivity].
Qed.

Lemma callback_success_with_identity_witness :
  known store_pending (q_state q_code_X) = Some "X"
  /\ strict_eq (JStr "client-1") (of_env (CLIENT_ID cfg0)) = true
  /\ get "email_verified" [("aud", JStr "client-1"); ("email_verified", JBool true)]
     <> JStr "true"
  /\ snd (status "X" (fst (fst (callback cfg0 prov_bool_verified q_code_X 5 store_pending))))
     = json (JObj [("status", JStr "complete"); ("access_token", JStr "T");
                   ("refresh_token", JUndef); ("id_token", JStr "I");
                   ("expires_in", JUndef);
                   ("user", JObj [("sub", JUndef); ("email", JUndef);
                                  ("email_verified", JBool false); ("name", JUndef);
                                  ("picture", JUndef); ("given_name", JUndef);
                                  ("family_name", JUndef)])]).
Proof.
  split; [reflexivity|]. split; [reflexivity|]. split; [discriminate|].
  destruct (callback_success_with_identity cfg0 prov_bool_verified q_code_X 5
              store_pending "X"
              [("access_token", JStr "T"); ("id_token", JStr "I")]
              [("aud", JStr "client-1"); ("email_verified", JBool true)]
              eq_refl eq_refl eq_refl eq_refl eq_refl eq_refl eq_refl) as (_ & -> & _).
  reflexivity.
Defined.

(** *** [callback], on every input *)

(** X9. The calls [callback] makes to the provider.  It makes none, or the
    token request alone, or the token request followed by one verification
    request.  A call is made only without an error parameter, with a code and
    for a known state; the token request carries the code of the query, the
    client identifier and secret, [CALLBACK_URI] and the grant type
    [authorization_code]; the verification request is made only for a truthy
    identity token that the token endpoint returned. *)
Theorem callback_calls_discipline (cfg : config) (prov : provider) (q : query)
    (now : Z) (s : store) :
  match snd (callback cfg prov q now s) with
  | [] => True
  | PostToken r :: rest =>
      r = {| tr_code := q_code q; tr_client_id := CLIENT_ID cfg;
             tr_client_secret := CLIENT_SECRET cfg;
             tr_redirect_uri := CALLBACK_URI cfg;
             tr_grant_type := "authorization_code" |}
      /\ truthy (q_error q) = false
      /\ truthy (q_code q) = true
      /\ is_Some (known s (q_state q))
      /\ (rest = []
          \/ exists tokenData,
               token prov r = Resolved tokenData
               /\ truthy (get "id_token" tokenData) = true
               /\ rest = [GetTokenInfo (get "id_token" tokenData)])
  | GetTokenInfo _ :: _ => False
  end.
Proof.
  unfold callback, callback_enter.
  destruct (truthy (q_error q)) eqn:Herr.
  { by destruct (known s (q_state q)). }
  destruct (known s (q_state q)) as [k|] eqn:Hk; [|done].
  destruct (truthy (q_code q)) eqn:Hcode; [|done]. cbn [negb].
  unfold exchange, request_for.
  destruct (token prov _) as [td|e] eqn:Htok.
  - destruct (truthy (get "id_token" td)) eqn:Hid.
    + destruct (tokeninfo prov _) as [v|e];
        [destruct (negb _)|]; cbn; repeat split; eauto 10.
    + cbn. repeat split; eauto.
  - cbn. repeat split; eauto.
Qed.

(** X10. The page [callback] renders agrees with what it wrote.  The code is
    400 exactly when there is no error parameter and the state is not known,
    and 200 otherwise; the page is the success page exactly when the record
    of the state has been written as complete, and then no error record was
    written. *)
Theorem callback_page_matches_store (cfg : config) (prov : provider) (q : query)
    (now : Z) (s : store) :
  exists p,
    content (snd (fst (callback cfg prov q now s))) = Html p
    /\ code (snd (fst (callback cfg prov q now s)))
       = (if negb (truthy (q_error q)) && negb (bool_decide (is_Some (known s (q_state q))))
          then 400 else 200)%Z
    /\ (page_success p = true <->
        exists k tokenData user,
          known s (q_state q) = Some k
          /\ fst (fst (callback cfg prov q now s))
             = <[k := complete_entry tokenData user now]> s).
Proof.
  unfold callback, callback_enter.
  destruct (truthy (q_error q)) eqn:Herr.
  { destruct (known s (q_state q)) as [k|] eqn:Hk; cbn; eexists;
      (split; [reflexivity|split; [reflexivity|]]); cbn;
      (split; [discriminate|]); intros (k' & td & u & Hk' & Hs); [|discriminate].
    injection Hk' as <-.
    apply (f_equal (fun m => Entry.status <$> m !! k)) in Hs.
    rewrite !lookup_insert_eq in Hs. discriminate. }
  destruct (known s (q_state q)) as [k|] eqn:Hk.
  2:{ cbn. eexists. split; [reflexivity|]. split; [reflexivity|]. cbn.
      split; [discriminate|]. intros (k' & td & u & Hk' & _). discriminate. }
  destruct (truthy (q_code q)) eqn:Hcode; cbn [negb].
  2:{ cbn. eexists. split; [reflexivity|]. split; [reflexivity|]. cbn.
      split; [discriminate|]. intros (k' & td & u & Hk' & Hs). injection Hk' as <-.
      apply (f_equal (fun m => Entry.status <$> m !! k)) in Hs.
      rewrite !lookup_insert_eq in Hs. discriminate. }
  destruct (exchange cfg prov (q_code q)) as [calls [[td u]|e]]; cbn.
  - eexists. split; [reflexivity|]. split; [reflexivity|]. cbn.
    split; [|done]. intros _. eauto.
  - eexists. split; [reflexivity|]. split; [reflexivity|]. cbn.
    split; [discriminate|]. intros (k' & td & u & Hk' & Hs). injection Hk' as <-.
    apply (f_equal (fun m => Entry.status <$> m !! k)) in Hs.
    rewrite !lookup_insert_eq in Hs. discriminate.
Qed.

(** X11. The store write after the awaits is not guarded.  When the record
    was swept (too old) while the exchange was under way, the tail of
    [callback] still writes: the state gets a record again, terminal and
    stamped with the time of the write, and the next [status] call delivers
    it with code 200. *)
Theorem callback_settle_after_sweep (q : query) (t1 t2 t3 : Z) (s : store)
    (k : string) (code : jsval) (e0 : Entry.t)
    (r : outcome (list (string * jsval) * jsval)) :
  callback_enter q t1 s = inr (k, code) ->
  s !! k = Some e0 ->
  (t2 - Entry.createdAt e0 > AUTH_TTL_MS)%Z ->
  sweep t2 s !! k = None
  /\ exists e',
       fst (callback_settle k r t3 (sweep t2 s)) = <[k := e']> (sweep t2 s)
       /\ Entry.terminal e' = true
       /\ Entry.createdAt e' = t3
       /\ Server.code (snd (status k (fst (callback_settle k r t3 (sweep t2 s))))) = 200%Z
       /\ fst (status k (fst (callback_settle k r t3 (sweep t2 s)))) = sweep t2 s.
Proof.
  intros _ H0 Hage.
  assert (sweep t2 s !! k = None) as Hgone.
  { rewrite sweep_lookup, H0.
    assert (expired t2 e0 = true) as ->; [|reflexivity].
    apply expired_gt. unfold AUTH_TTL_MS in Hage. lia. }
  split; [exact Hgone|].
  destruct (callback_settle_store k r t3 (sweep t2 s)) as (e' & -> & Ht & Hc & _).
  exists e'. repeat split; try assumption.
  - unfold status. rewrite lookup_insert_eq.
    unfold Entry.terminal in Ht. by destruct (Entry.status e').
  - unfold status. rewrite lookup_insert_eq.
    unfold Entry.terminal in Ht.
    destruct (Entry.status e'); [discriminate|..]; cbn [fst];
      by rewrite delete_insert_id.
Qed.

Lemma callback_settle_after_sweep_witness :
  callback_enter q_code_X 1000 store_pending = inr ("X", JStr "c")
  /\ store_pending !! "X" = Some (pending_entry 0)
  /\ sweep 300001 store_pending !! "X" = None
  /\ exists e', fst (callback_settle "X" (Resolved ([("access_token", JStr "T")], JNull))
                       300002 (sweep 300001 store_pending))
                = <["X" := e']> (sweep 300001 store_pending)
                /\ Entry.createdAt e' = 300002%Z.
Proof.
  assert (300001 - Entry.createdAt (pending_entry 0) > AUTH_TTL_MS)%Z as Hage.
  { unfold AUTH_TTL_MS, pending_entry. cbn [Entry.createdAt]. lia. }
  split; [reflexivity|]. split; [reflexivity|].
  destruct (callback_settle_after_sweep q_code_X 1000 300001 300002 store_pending "X"
              (JStr "c") (pending_entry 0)
              (Resolved ([("access_token", JStr "T")], JNull)) eq_refl eq_refl Hage)
    as (Hgone & e' & He & _ & Hc & _).
  split; [exact Hgone|]. exists e'. split; [exact He|exact Hc].
Defined.

(** *** The store over sequences of requests *)

(** X12. Polling one session does not disturb another: [status] for a token
    leaves the record of every other token as it is, never adds a record,
    and answers with code 200 exactly when the token has a record. *)
Theorem status_frame (state : string) (s : store) :
  (forall k, k <> state -> fst (status state s) !! k = s !! k)
  /\ (forall k, s !! k = None -> fst (status state s) !! k = None)
  /\ code (snd (status state s)) = (if bool_decide (is_Some (s !! state)) then 200 else 404)%Z.
Proof.
  unfold status. destruct (s !! state) as [e|] eqn:He.
  - rewrite bool_decide_eq_true_2 by eauto.
    destruct (Entry.status e); cbn [fst snd]; repeat split; try done;
      intros k Hk;
      (destruct (decide (k = state)) as [->|Hne];
       [by rewrite ?lookup_delete_eq|by rewrite lookup_delete_ne]).
  - rewrite bool_decide_eq_false_2 by (intros [? ?]; discriminate). by repeat split.
Qed.

Lemma never_draws_drawn (k : string) (l : list (Z * request)) :
  ~ In k (drawn l) -> never_draws k l.
Proof.
  unfold never_draws. induction l as [|[now r] l IH]; intros Hk; [constructor|].
  destruct r as [rand|prov q|state|]; cbn [drawn] in Hk.
  - constructor; cbn; [|apply IH]; intros H; apply Hk; [by left|by right].
  - constructor; [done|by apply IH].
  - constructor; [done|by apply IH].
  - constructor; [done|by apply IH].
Qed.

(** X13. Only [start] creates records.  After any sequence of requests
    (starts, callbacks, status polls, sweeps), every token that has a record
    either had one before or was drawn by a [start] of the sequence. *)
Theorem serve_keys_from_start (cfg : config) (l : list (Z * request)) (s : store)
    (k : string) :
  is_Some (serve cfg l s !! k) -> is_Some (s !! k) \/ In k (drawn l).
Proof.
  intros [e He].
  destruct (s !! k) as [e0|] eqn:Hk; [left; eauto|].
  destruct (in_dec String.string_dec k (drawn l)) as [Hin|Hnin]; [by right|].
  rewrite (serve_absent cfg l s k Hk (never_draws_drawn k l Hnin)) in He. discriminate.
Qed.

Lemma serve_keys_from_start_witness :
  is_Some (serve cfg0 [(0%Z, GetStart rand0); (1%Z, GetStatus "X"); (2%Z, SweepTick)] ∅
             !! "00abff10")
  /\ In "00abff10" (drawn [(0%Z, GetStart rand0); (1%Z, GetStatus "X"); (2%Z, SweepTick)]).
Proof.
  assert (is_Some (serve cfg0 [(0%Z, GetStart rand0); (1%Z, GetStatus "X"); (2%Z, SweepTick)] ∅
                     !! "00abff10")) as H.
  { exists (pending_entry 0). reflexivity. }
  split; [exact H|].
  destruct (serve_keys_from_start cfg0 _ ∅ "00abff10" H) as [[e He]|Hin];
    [discriminate He|exact Hin].
Defined.

(** X14. A server without a client identifier never holds a session: every
    [start] is refused, so whatever requests it serves, a token without a
    record stays without one; starting from the empty store, the store stays
    empty and every [status] call answers not_found. *)
Theorem unconfigured_holds_nothing (cfg : config) (l : list (Z * request)) (s : store) :
  truthy (of_env (CLIENT_ID cfg)) = false ->
  (forall k, s !! k = None -> serve cfg l s !! k = None)
  /\ (s = ∅ -> serve cfg l s = ∅
               /\ forall state, snd (status state (serve cfg l s)) = not_found_response).
Proof.
  intros Hcfg.
  assert (forall k, s !! k = None -> serve cfg l s !! k = None) as Hkeep.
  { revert s. induction l as [|[now r] l IH]; intros s k Hk; [exact Hk|].
    unfold serve in *. cbn [fold_left fst snd]. apply IH.
    destruct r as [rand|prov q|state|].
    - cbn [handle]. unfold start. by rewrite Hcfg.
    - by apply handle_absent.
    - by apply handle_absent.
    - by apply handle_absent. }
  split; [exact Hkeep|]. intros ->.
  assert (serve cfg l ∅ = ∅) as ->.
  { apply map_eq. intros k. rewrite lookup_empty. by apply Hkeep. }
  split; [reflexivity|]. intros state. by rewrite status_absent.
Qed.

Lemma unconfigured_holds_nothing_witness :
  truthy (of_env (CLIENT_ID cfg_unset)) = false
  /\ serve cfg_unset [(0%Z, GetStart rand0); (1%Z, GetCallback prov_ok q_code_X)] ∅ = ∅.
Proof.
  split; [reflexivity|].
  destruct (unconfigured_holds_nothing cfg_unset
              [(0%Z, GetStart rand0); (1%Z, GetCallback prov_ok q_code_X)] ∅ eq_refl)
    as [_ H].
  by destruct (H eq_refl) as [-> _].
Defined.

Lemma status_keeps (state : string) (s : store) (k : string) (e : Entry.t) :
  fst (status state s) !! k = Some e -> s !! k = Some e.
Proof.
  unfold status. destruct (s !! state) as [e2|]; [|done].
  destruct (Entry.status e2); cbn [fst]; [done|..];
    intros He; by apply lookup_delete_Some in He as [_ ?].
Qed.

Lemma handle_stamped (cfg : config) (now T : Z) (r : request) (s : store) :
  (T <= now)%Z -> stamped_by T s -> stamped_by now (handle cfg now r s).
Proof.
  intros Hle Hs.
  assert (stamped_by now s) as Hs'.
  { intros k e He. specialize (Hs k e He). lia. }
  assert (forall k0 e0, Entry.createdAt e0 = now -> stamped_by now (<[k0 := e0]> s)) as Hins.
  { intros k0 e0 Hc k e. destruct (decide (k0 = k)) as [->|Hne].
    - rewrite lookup_insert_eq. intros [= <-]. lia.
    - rewrite lookup_insert_ne by done. apply Hs'. }
  destruct r as [rand|prov q|state|]; cbn [handle].
  - unfold start. destruct (negb _); cbn [fst]; [exact Hs'|]. by apply Hins.
  - destruct (known s (q_state q)) as [k'|] eqn:Hkn.
    + destruct (callback_known cfg prov q now s k' Hkn) as (e' & -> & _ & Hc & _).
      by apply Hins.
    + by destruct (callback_unknown cfg prov q now s Hkn) as [-> _].
  - intros k e He. apply (Hs' k e). by apply (status_keeps state).
  - intros k e He. apply (Hs' k e). rewrite sweep_lookup in He.
    destruct (s !! k) as [e1|]; [|discriminate].
    destruct (expired now e1); [discriminate|exact He].
Qed.

(** X15. No record is stamped in the future.  When the clock does not go
    back, after any sequence of requests every record's [createdAt] is at
    most the time of the last request, so the age the sweep computes is never
    negative. *)
Theorem serve_stamped (cfg : config) (l : list (Z * request)) (t : Z) (s : store) :
  clock_from t l ->
  stamped_by t s ->
  stamped_by (last_time t l) (serve cfg l s)
  /\ forall k e, serve cfg l s !! k = Some e -> (0 <= last_time t l - Entry.createdAt e)%Z.
Proof.
  intros Hclock Hs.
  assert (stamped_by (last_time t l) (serve cfg l s)) as H.
  { revert t s Hclock Hs. induction l as [|[now r] l IH]; intros t s Hclock Hs; [exact Hs|].
    destruct Hclock as [Hle Hrest]. unfold serve in *. cbn [fold_left fst snd last_time].
    apply IH; [exact Hrest|]. by apply (handle_stamped cfg now t). }
  split; [exact H|]. intros k e He. specialize (H k e He). lia.
Qed.

Lemma serve_stamped_witness :
  clock_from 0 [(5%Z, GetStart rand0); (9%Z, GetCallback prov_ok q_code_X)]
  /\ stamped_by 0 ∅
  /\ stamped_by 9 (serve cfg0 [(5%Z, GetStart rand0); (9%Z, GetCallback prov_ok q_code_X)] ∅).
Proof.
  assert (clock_from 0 [(5%Z, GetStart rand0); (9%Z, GetCallback prov_ok q_code_X)]) as Hc.
  { cbn. lia. }
  assert (stamped_by 0 ∅) as Hs.
  { intros k e He. rewrite lookup_empty in He. discriminate. }
  split; [exact Hc|]. split; [exact Hs|].
  exact (proj1 (serve_stamped cfg0 _ 0 ∅ Hc Hs)).
Defined.

(* ===================================================================== *)
(** ** Properties of the legacy exchange *)
(* ===================================================================== *)

(** X16. The legacy exchange refuses before it calls.  A missing code gives
    400 whatever the configuration; with a code, a missing client identifier
    or secret gives 500; neither refusal makes a call.  In every other case
    the token request is made first, with the code of the body and
    [REDIRECT_URI], and it is followed by at most one verification request,
    made only for a truthy identity token that the token endpoint
    returned. *)
Theorem legacy_refusals_and_calls (cfg : config) (REDIRECT_URI : string)
    (prov : Legacy.provider) (code : jsval) :
  (truthy code = false ->
     Legacy.exchange cfg REDIRECT_URI prov code
     = (status_json 400 (JObj [("error", JStr "Missing authorization code")]), []))
  /\ (truthy code = true ->
      truthy (of_env (CLIENT_ID cfg)) = false \/ truthy (of_env (CLIENT_SECRET cfg)) = false ->
      Legacy.exchange cfg REDIRECT_URI prov code
      = (status_json 500
           (JObj [("error", JStr "Missing GOOGLE_CLIENT_ID or GOOGLE_CLIENT_SECRET")]), []))
  /\ (truthy code = true ->
      truthy (of_env (CLIENT_ID cfg)) = true ->
      truthy (of_env (CLIENT_SECRET cfg)) = true ->
      exists rest,
        snd (Legacy.exchange cfg REDIRECT_URI prov code)
        = PostToken {| tr_code := code; tr_client_id := CLIENT_ID cfg;
                       tr_client_secret := CLIENT_SECRET cfg;
                       tr_redirect_uri := REDIRECT_URI;
                       tr_grant_type := "authorization_code" |} :: rest
        /\ (rest = []
            \/ exists tokenData,
                 Legacy.token prov (Legacy.request_for cfg REDIRECT_URI code)
                 = Legacy.Fulfilled tokenData
                 /\ truthy (get "id_token" tokenData) = true
                 /\ rest = [GetTokenInfo (get "id_token" tokenData)])).
Proof.
  unfold Legacy.exchange. split; [|split].
  - by intros ->.
  - intros -> [-> | ->]; cbn [negb orb]; [reflexivity|].
    by rewrite orb_true_r.
  - intros -> -> ->. cbn [negb orb]. fold (Legacy.request_for cfg REDIRECT_URI code).
    destruct (Legacy.token prov _) as [td|e] eqn:Htok.
    + destruct (truthy (get "id_token" td)) eqn:Hid.
      * destruct (Legacy.tokeninfo prov _) as [v|e];
          [destruct (negb _)|]; cbn; eexists; (split; [reflexivity|]); eauto 10.
      * cbn. eexists. split; [reflexivity|]. by left.
    + cbn. eexists. split; [reflexivity|]. by left.
Qed.

Lemma legacy_refusals_and_calls_witness :
  truthy JUndef = false
  /\ Legacy.exchange cfg_unset "postmessage" legacy_ok JUndef
     = (status_json 400 (JObj [("error", JStr "Missing authorization code")]), [])
  /\ Legacy.exchange cfg_unset "postmessage" legacy_ok (JStr "c")
     = (status_json 500
          (JObj [("error", JStr "Missing GOOGLE_CLIENT_ID or GOOGLE_CLIENT_SECRET")]), []).
Proof.
  destruct (legacy_refusals_and_calls cfg_unset "postmessage" legacy_ok JUndef) as (H400 & _).
  destruct (legacy_refusals_and_calls cfg_unset "postmessage" legacy_ok (JStr "c"))
    as (_ & H500 & _).
  split; [reflexivity|]. split; [exact (H400 eq_refl)|].
  exact (H500 eq_refl (or_introl eq_refl)).
Defined.



(** X18. When a call to the provider fails, the legacy exchange passes the
    failure on: the code is the status of the provider's response, or 500
    when there is no response (or a status 0); the [error] field is the body
    of the provider's response when it is truthy, else the message of the
    error when it is not empty, else "Token exchange failed". *)
Theorem legacy_failure_passthrough (cfg : config) (REDIRECT_URI : string)
    (prov : Legacy.provider) (code : jsval) (e : Legacy.rejection) :
  truthy code = true ->
  truthy (of_env (CLIENT_ID cfg)) = true ->
  truthy (of_env (CLIENT_SECRET cfg)) = true ->
  (Legacy.token prov (Legacy.request_for cfg REDIRECT_URI code) = Legacy.Failed e
   \/ exists tokenData,
        Legacy.token prov (Legacy.request_for cfg REDIRECT_URI code)
        = Legacy.Fulfilled tokenData
        /\ truthy (get "id_token" tokenData) = true
        /\ Legacy.tokeninfo prov (get "id_token" tokenData) = Legacy.Failed e) ->
  fst (Legacy.exchange cfg REDIRECT_URI prov code)
  = status_json
      (match Legacy.response_status e with
       | Some n => if (n =? 0)%Z then 500 else n
       | None => 500
       end)%Z
      (JObj [("error",
              if truthy (Legacy.response_data e) then Legacy.response_data e
              else if negb (String.eqb (Legacy.rejection_message e) "")
                   then JStr (Legacy.rejection_message e)
                   else JStr "Token exchange failed")]).
Proof.
  intros Hcode Hid Hsec Hfail. unfold Legacy.exchange.
  rewrite Hcode, Hid, Hsec. cbn [negb orb].
  assert (Legacy.failure e
          = status_json
              (match Legacy.response_status e with
               | Some n => if (n =? 0)%Z then 500 else n
               | None => 500
               end)%Z
              (JObj [("error",
                      if truthy (Legacy.response_data e) then Legacy.response_data e
                      else if negb (String.eqb (Legacy.rejection_message e) "")
                           then JStr (Legacy.rejection_message e)
                           else JStr "Token exchange failed")])) as Hf.
  { unfold Legacy.failure, or_else.
    destruct (truthy (Legacy.response_data e)); [reflexivity|]. cbn [truthy].
    by destruct (String.eqb (Legacy.rejection_message e) ""). }
  destruct Hfail as [->|(td & -> & -> & ->)]; exact Hf.
Qed.

Lemma legacy_failure_passthrough_witness :
  truthy (JStr "c") = true
  /\ fst (Legacy.exchange cfg0 "postmessage" legacy_refuses (JStr "c"))
     = status_json 400 (JObj [("error", JObj [("error", JStr "invalid_grant");
                                              ("error_description", JStr "Bad Request")])]).
Proof.
  split; [reflexivity|].
  exact (legacy_failure_passthrough cfg0 "postmessage" legacy_refuses (JStr "c") _
           eq_refl eq_refl eq_refl (or_introl eq_refl)).
Defined.

(** X19. The two flows judge an exchange alike.  With the same redirect URI
    and the same provider answers, the legacy exchange makes exactly the
    calls that [callback] makes in its [try] block; it returns a token bundle
    exactly when [callback] would record the session as complete, with the
    same token data and a null user together; and it returns an error body
    exactly when [callback] would record an error. *)
Theorem legacy_agrees_with_callback (cfg : config) (prov : Legacy.provider) (code : jsval) :
  truthy code = true ->
  truthy (of_env (CLIENT_ID cfg)) = true ->
  truthy (of_env (CLIENT_SECRET cfg)) = true ->
  snd (Legacy.exchange cfg (CALLBACK_URI cfg) prov code)
  = fst (exchange cfg (Legacy.popup_view prov) code)
  /\ match snd (exchange cfg (Legacy.popup_view prov) code) with
     | Resolved (tokenData, user) =>
         exists userInfo,
           fst (Legacy.exchange cfg (CALLBACK_URI cfg) prov code)
           = Legacy.token_bundle tokenData userInfo
           /\ (user = JNull <-> userInfo = JNull)
     | Rejected _ =>
         exists c m,
           fst (Legacy.exchange cfg (CALLBACK_URI cfg) prov code)
           = status_json c (JObj [("error", m)])
     end.
Proof.
  intros Hcode Hid Hsec. unfold Legacy.exchange, exchange.
  rewrite Hcode, Hid, Hsec. cbn [negb orb].
  change (Legacy.request_for cfg (CALLBACK_URI cfg) code) with (request_for cfg code).
  unfold Legacy.popup_view at 1 3. cbn [token].
  destruct (Legacy.token prov (request_for cfg code)) as [td|e]; cbn [Legacy.to_outcome].
  - destruct (truthy (get "id_token" td)).
    + unfold Legacy.popup_view. cbn [tokeninfo].
      destruct (Legacy.tokeninfo prov (get "id_token" td)) as [v|e];
        cbn [Legacy.to_outcome].
      * destruct (strict_eq (get "aud" v) (of_env (CLIENT_ID cfg))); cbn.
        -- split; [reflexivity|]. eexists. split; [reflexivity|]. by split.
        -- split; [reflexivity|]. eauto.
      * cbn. split; [reflexivity|]. unfold Legacy.failure. eauto.
    + cbn. split; [reflexivity|]. eexists. by split.
  - cbn. split; [reflexivity|]. unfold Legacy.failure. eauto.
Qed.

Lemma legacy_agrees_with_callback_witness :
  truthy (JStr "c") = true
  /\ snd (Legacy.exchange cfg0 (CALLBACK_URI cfg0) legacy_other_aud (JStr "c"))
     = fst (exchange cfg0 (Legacy.popup_view legacy_other_aud) (JStr "c")).
Proof.
  split; [reflexivity|].
  exact (proj1 (legacy_agrees_with_callback cfg0 legacy_other_aud (JStr "c")
                  eq_refl eq_refl eq_refl)).
Defined.

(* ===================================================================== *)
(** ** Further properties of the client *)
(* ===================================================================== *)

(** The calls a live timer can still make. *)
Lemma run_budget (stub : nat -> outcome AuthStatusResponse.t) (st : string)
    (n : nat) (c : ctrl) :
  (checks (run stub st n c)
   <= checks c + match pollInterval c with
                 | Some _ => MAX_POLL_ATTEMPTS - pollCount c
                 | None => 0
                 end)%nat.
Proof.
  revert c. induction n as [|n IH]; intros c; [cbn [run]; lia|].
  cbn [run]. destruct (pollInterval c) as [id|] eqn:Hint.
  - pose proof (period_active st (stub (checks c)) c id Hint) as Hp.
    specialize (IH (period st (stub (checks c)) c)).
    destruct (Nat.leb_spec MAX_POLL_ATTEMPTS (pollCount c)) as [Hge|Hlt].
    + destruct Hp as (Hnone & Hch & _). rewrite Hnone, Hch in IH. lia.
    + destruct Hp as (Hch & Hrest). rewrite Hch in IH.
      destruct (terminal_response (stub (checks c))).
      * destruct Hrest as (Hnone & _). rewrite Hnone in IH. lia.
      * destruct Hrest as (Hint' & Hpc' & _). rewrite Hint', Hpc' in IH. lia.
  - rewrite period_inactive by exact Hint. specialize (IH c). rewrite Hint in IH. lia.
Qed.

Lemma run_quiet (stub : nat -> outcome AuthStatusResponse.t) (st : string)
    (id : positive) (n : nat) (c : ctrl) :
  pollInterval c = Some id ->
  (pollCount c + n <= MAX_POLL_ATTEMPTS)%nat ->
  (forall i, (checks c <= i < checks c + n)%nat -> terminal_response (stub i) = false) ->
  pollInterval (run stub st n c) = Some id
  /\ pollCount (run stub st n c) = (pollCount c + n)%nat
  /\ checks (run stub st n c) = (checks c + n)%nat
  /\ authState (run stub st n c) = authState c.
Proof.
  revert c. induction n as [|n IH]; intros c Hint Hle Hstub.
  - cbn [run]. repeat split; [exact Hint|lia|lia].
  - cbn [run].
    pose proof (period_active st (stub (checks c)) c id Hint) as Hp.
    destruct (Nat.leb_spec MAX_POLL_ATTEMPTS (pollCount c)) as [Hge|Hlt]; [lia|].
    rewrite (Hstub (checks c)) in Hp by lia.
    destruct Hp as (Hch & Hint' & Hpc' & _ & Ha).
    destruct (IH (period st (stub (checks c)) c)) as (H1 & H2 & H3 & H4).
    + exact Hint'.
    + rewrite Hpc'. lia.
    + intros i Hi. apply Hstub. rewrite Hch in Hi. lia.
    + repeat split; [exact H1|rewrite H2, Hpc'; lia|rewrite H3, Hch; lia|by rewrite H4].
Qed.

(** Every way the timer stops leaves the counter at 0. *)
Lemma period_reset (st : string) (o : outcome AuthStatusResponse.t) (c : ctrl) :
  (pollInterval c = None -> pollCount c = 0%nat) ->
  pollInterval (period st o c) = None -> pollCount (period st o c) = 0%nat.
Proof.
  destruct c as [pc pi a tr]. cbn [pollInterval pollCount]. intros Hinv.
  unfold period, tick_head. cbn [pollInterval pollCount authState trace].
  destruct pi as [id|]; [|exact Hinv].
  destruct (Nat.ltb_spec MAX_POLL_ATTEMPTS (pc + 1)); [by cbn|].
  destruct o as [r|e]; [|cbn; discriminate].
  unfold tick_tail, handleAuthComplete.
  destruct (AuthStatusResponse.status r); cbn; done.
Qed.

Lemma run_reset (stub : nat -> outcome AuthStatusResponse.t) (st : string)
    (n : nat) (c : ctrl) :
  (pollInterval c = None -> pollCount c = 0%nat) ->
  pollInterval (run stub st n c) = None -> pollCount (run stub st n c) = 0%nat.
Proof.
  revert c. induction n as [|n IH]; intros c Hinv; [exact Hinv|].
  cbn [run]. apply IH. by apply period_reset.
Qed.

(** X20. A new attempt gets the whole budget again.  Once a first attempt
    has stopped (result, expiry or timeout), the counter is back at 0; a
    second [startPolling] then makes at most 300 further calls, and does make
    one call per period for up to 300 periods while the answers are not
    terminal, however many calls the first attempt made. *)
Theorem restart_has_full_budget
    (stub1 stub2 : nat -> outcome AuthStatusResponse.t) (st1 st2 : string)
    (id1 id2 : positive) (a : AuthState.t) (n1 n2 : nat) :
  pollInterval (run stub1 st1 n1 (startPolling id1 (ready a))) = None ->
  pollCount (run stub1 st1 n1 (startPolling id1 (ready a))) = 0%nat
  /\ (checks (run stub2 st2 n2
                (startPolling id2 (run stub1 st1 n1 (startPolling id1 (ready a)))))
      <= checks (run stub1 st1 n1 (startPolling id1 (ready a))) + 300)%nat
  /\ ((n2 <= 300)%nat ->
      (forall i, terminal_response (stub2 i) = false) ->
      checks (run stub2 st2 n2
                (startPolling id2 (run stub1 st1 n1 (startPolling id1 (ready a)))))
      = (checks (run stub1 st1 n1 (startPolling id1 (ready a))) + n2)%nat
      /\ pollInterval (run stub2 st2 n2
                         (startPolling id2 (run stub1 st1 n1 (startPolling id1 (ready a)))))
         = Some id2).
Proof.
  intros Hstopped.
  set (c1 := run stub1 st1 n1 (startPolling id1 (ready a))) in *.
  assert (pollCount c1 = 0%nat) as Hzero.
  { apply run_reset; [discriminate|exact Hstopped]. }
  assert (pollInterval (startPolling id2 c1) = Some id2
          /\ pollCount (startPolling id2 c1) = 0%nat
          /\ checks (startPolling id2 c1) = checks c1) as (Hint & Hpc & Hch).
  { unfold startPolling, setAuthState, checks. cbn. by rewrite Hzero. }
  split; [exact Hzero|]. split.
  - pose proof (run_budget stub2 st2 n2 (startPolling id2 c1)) as Hb.
    rewrite Hint, Hpc, Hch in Hb.
    change MAX_POLL_ATTEMPTS with 300%nat in Hb. lia.
  - intros Hn Hstub.
    destruct (run_quiet stub2 st2 id2 n2 (startPolling id2 c1)) as (H1 & _ & H3 & _).
    + exact Hint.
    + rewrite Hpc. change MAX_POLL_ATTEMPTS with 300%nat. lia.
    + intros i _. apply Hstub.
    + split; [by rewrite H3, Hch|exact H1].
Qed.

Lemma restart_has_full_budget_witness :
  pollInterval (run stub_4_pending "abc" 5 (startPolling 1 (ready idle))) = None
  /\ (checks (run (fun _ => Resolved pending_answer) "def" 300
                (startPolling 2 (run stub_4_pending "abc" 5 (startPolling 1 (ready idle)))))
      = 5 + 300)%nat.
Proof.
  assert (pollInterval (run stub_4_pending "abc" 5 (startPolling 1 (ready idle))) = None)
    as Hstop by reflexivity.
  split; [exact Hstop|].
  destruct (restart_has_full_budget stub_4_pending (fun _ => Resolved pending_answer)
              "abc" "def" 1 2 idle 5 300 Hstop) as (_ & _ & H).
  destruct (H (le_n _) (fun _ => eq_refl)) as [Hc _]. rewrite Hc. reflexivity.
Defined.

(** What a period does to the two refs and to the calls made does not depend
    on the React state or on the other events of the trace. *)
Lemma period_agree (st : string) (o : outcome AuthStatusResponse.t) (c c' : ctrl) :
  pollCount c = pollCount c' ->
  pollInterval c = pollInterval c' ->
  checks c = checks c' ->
  pollCount (period st o c) = pollCount (period st o c')
  /\ pollInterval (period st o c) = pollInterval (period st o c')
  /\ checks (period st o c) = checks (period st o c')
  /\ (authState c = authState c' ->
      authState (period st o c) = authState (period st o c')).
Proof.
  destruct c as [pc pi a tr], c' as [pc' pi' a' tr']. unfold checks.
  cbn [pollCount pollInterval authState trace]. intros <- <- Hch.
  unfold period, tick_head. cbn [pollInterval pollCount authState trace].
  destruct pi as [id|]; [|by repeat split].
  destruct (Nat.ltb_spec MAX_POLL_ATTEMPTS (pc + 1)); [by cbn|].
  destruct o as [r|e]; [|cbn; repeat split; congruence].
  unfold tick_tail, handleAuthComplete.
  destruct (AuthStatusResponse.status r); cbn; repeat split; congruence.
Qed.

Lemma run_agree (stub : nat -> outcome AuthStatusResponse.t) (st : string)
    (n : nat) (c c' : ctrl) :
  pollCount c = pollCount c' ->
  pollInterval c = pollInterval c' ->
  checks c = checks c' ->
  pollCount (run stub st n c) = pollCount (run stub st n c')
  /\ pollInterval (run stub st n c) = pollInterval (run stub st n c')
  /\ checks (run stub st n c) = checks (run stub st n c')
  /\ (authState c = authState c' ->
      authState (run stub st n c) = authState (run stub st n c')).
Proof.
  revert c c'. induction n as [|n IH]; intros c c' Hpc Hint Hch; [by repeat split|].
  cbn [run]. rewrite <- Hch.
  destruct (period_agree st (stub (checks c)) c c' Hpc Hint Hch) as (H1 & H2 & H3 & H4).
  destruct (IH _ _ H1 H2 H3) as (K1 & K2 & K3 & K4).
  repeat split; try assumption. intros Ha. apply K4, H4, Ha.
Qed.



(** X22. A login whose popup opens polls, and nothing the popup watcher does
    changes that.  After [handleLogin] the poll timer is live, the state is
    loading and polling, the button is disabled and the status line reads
    "Waiting for authentication..."; at most 300 calls follow.  A firing of
    the watcher, with the popup closed or not, leaves the counter, the timer,
    the state and the calls of every later period as they would have been
    without it. *)
Theorem login_success_polls (resp : StartAuthResponse.t) (id wid : positive)
    (c : ctrl) (closed : bool) (stub : nat -> outcome AuthStatusResponse.t)
    (st : string) (n : nat) :
  pollInterval c = None ->
  pollCount c = 0%nat ->
  pollInterval (Login.handleLogin (Login.Started resp) true id c) = Some id
  /\ authState (Login.handleLogin (Login.Started resp) true id c)
     = AuthState.Make true true None None None None None
  /\ Login.button_disabled (authState (Login.handleLogin (Login.Started resp) true id c))
     = true
  /\ Login.statusText (authState (Login.handleLogin (Login.Started resp) true id c))
     = "Waiting for authentication..."
  /\ (checks (run stub st n (Login.handleLogin (Login.Started resp) true id c))
      <= checks c + 300)%nat
  /\ pollCount (run stub st n
                  (Login.popupWatcher closed wid
                     (Login.handleLogin (Login.Started resp) true id c)))
     = pollCount (run stub st n (Login.handleLogin (Login.Started resp) true id c))
  /\ pollInterval (run stub st n
                     (Login.popupWatcher closed wid
                        (Login.handleLogin (Login.Started resp) true id c)))
     = pollInterval (run stub st n (Login.handleLogin (Login.Started resp) true id c))
  /\ checks (run stub st n
               (Login.popupWatcher closed wid
                  (Login.handleLogin (Login.Started resp) true id c)))
     = checks (run stub st n (Login.handleLogin (Login.Started resp) true id c))
  /\ authState (run stub st n
                  (Login.popupWatcher closed wid
                     (Login.handleLogin (Login.Started resp) true id c)))
     = authState (run stub st n (Login.handleLogin (Login.Started resp) true id c)).
Proof.
  intros Hint Hpc.
  set (c' := Login.handleLogin (Login.Started resp) true id c).
  assert (pollInterval c' = Some id /\ pollCount c' = 0%nat /\ checks c' = checks c
          /\ authState c' = AuthState.Make true true None None None None None)
    as (H1 & H2 & H3 & H4).
  { unfold c', Login.handleLogin, startPolling, setAuthState, checks. cbn.
    by rewrite Hpc. }
  split; [exact H1|]. split; [exact H4|]. rewrite H4.
  split; [reflexivity|]. split; [reflexivity|]. split.
  - pose proof (run_budget stub st n c') as Hb. rewrite H1, H2, H3 in Hb.
    change MAX_POLL_ATTEMPTS with 300%nat in Hb. lia.
  - destruct (run_agree stub st n (Login.popupWatcher closed wid c') c')
      as (K1 & K2 & K3 & K4); try (by destruct closed).
    repeat split; try assumption. apply K4. by destruct closed.
Qed.

Lemma login_success_polls_witness :
  pollInterval init = None /\ pollCount init = 0%nat
  /\ checks (run stub_4_pending "abc" 9
               (Login.popupWatcher true 7
                  (Login.handleLogin (Login.Started (StartAuthResponse.Make "abc" "u"))
                     true 1 init))) = 5%nat.
Proof.
  split; [reflexivity|]. split; [reflexivity|].
  destruct (login_success_polls (StartAuthResponse.Make "abc" "u") 1 7 init true
              stub_4_pending "abc" 9 eq_refl eq_refl)
    as (_ & _ & _ & _ & _ & _ & _ & -> & _).
  reflexivity.
Defined.

Lemma period_flag (st : string) (o : outcome AuthStatusResponse.t) (c : ctrl) :
  AuthState.polling (authState c) = bool_decide (is_Some (pollInterval c)) ->
  AuthState.polling (authState (period st o c))
  = bool_decide (is_Some (pollInterval (period st o c))).
Proof.
  destruct c as [pc pi a tr]. cbn [pollInterval authState]. intros Hinv.
  unfold period, tick_head. cbn [pollInterval pollCount authState trace].
  destruct pi as [id|]; [|exact Hinv].
  destruct (Nat.ltb_spec MAX_POLL_ATTEMPTS (pc + 1)); [by cbn|].
  destruct o as [r|e]; [|exact Hinv].
  unfold tick_tail, handleAuthComplete.
  destruct (AuthStatusResponse.status r); cbn; done.
Qed.

(** X23. The polling flag of the state tells whether the poll timer is live.
    From [startPolling] on, after any number of periods and whatever the
    answers, [authState.polling] is true exactly when the timer is set; so
    while the timer is live the sign-in button is disabled and the status
    line reads "Waiting for authentication...", and the button is enabled
    only once the timer has been cleared. *)
Theorem polling_flag_matches_timer (stub : nat -> outcome AuthStatusResponse.t)
    (st : string) (id : positive) (c0 : ctrl) (n : nat) :
  AuthState.polling (authState (run stub st n (startPolling id c0)))
  = bool_decide (is_Some (pollInterval (run stub st n (startPolling id c0))))
  /\ (is_Some (pollInterval (run stub st n (startPolling id c0))) ->
      Login.button_disabled (authState (run stub st n (startPolling id c0))) = true
      /\ Login.statusText (authState (run stub st n (startPolling id c0)))
         = "Waiting for authentication...")
  /\ (Login.button_disabled (authState (run stub st n (startPolling id c0))) = false ->
      pollInterval (run stub st n (startPolling id c0)) = None).
Proof.
  assert (forall c, AuthState.polling (authState c) = bool_decide (is_Some (pollInterval c)) ->
            AuthState.polling (authState (run stub st n c))
            = bool_decide (is_Some (pollInterval (run stub st n c)))) as Hrun.
  { induction n as [|k IH]; intros c Hc; [exact Hc|]. cbn [run]. by apply IH, period_flag. }
  specialize (Hrun (startPolling id c0) eq_refl).
  set (c := run stub st n (startPolling id c0)) in *.
  split; [exact Hrun|]. unfold Login.button_disabled, Login.statusText. split.
  - intros Hlive. rewrite bool_decide_eq_true_2 in Hrun by exact Hlive.
    rewrite Hrun. by rewrite orb_true_r, andb_false_r.
  - intros Hbtn. apply orb_false_iff in Hbtn as [_ Hp]. rewrite Hp in Hrun.
    destruct (pollInterval c); [|reflexivity].
    rewrite bool_decide_eq_true_2 in Hrun by eauto. discriminate.
Qed.

Lemma polling_flag_matches_timer_witness :
  is_Some (pollInterval (run stub_4_pending "abc" 3 (startPolling 1 init)))
  /\ Login.statusText (authState (run stub_4_pending "abc" 3 (startPolling 1 init)))
     = "Waiting for authentication...".
Proof.
  assert (is_Some (pollInterval (run stub_4_pending "abc" 3 (startPolling 1 init)))) as H.
  { exists 1%positive. reflexivity. }
  split; [exact H|].
  destruct (polling_flag_matches_timer stub_4_pending "abc" 1 init 3) as (_ & Hlive & _).
  exact (proj2 (Hlive H)).
Defined.

(** X24. What the status line reads once polling has ended with a result.
    After the first terminal answer the button is enabled again and the
    status line reads "Signed in" for complete, the error of the answer for
    error ("Authentication failed" when the answer carries none or an empty
    one), and "Session expired. Please try again." for not_found. *)
Theorem status_line_after_result (stub : nat -> outcome AuthStatusResponse.t)
    (st : string) (id : positive) (a : AuthState.t) (k : nat)
    (r : AuthStatusResponse.t) (m : nat) :
  (k < 300)%nat ->
  (forall i, (i < k)%nat -> terminal_response (stub i) = false) ->
  stub k = Resolved r ->
  terminal_response (Resolved r) = true ->
  Login.statusText (authState (run stub st (k + 1 + m) (startPolling id (ready a))))
  = match AuthStatusResponse.status r with
    | PollStatus.complete => "Signed in"
    | PollStatus.error =>
        match AuthStatusResponse.error r with
        | Some e => if String.eqb e "" then "Authentication failed" else e
        | None => "Authentication failed"
        end
    | _ => "Session expired. Please try again."
    end
  /\ Login.button_disabled (authState (run stub st (k + 1 + m) (startPolling id (ready a))))
     = false.
Proof.
  intros Hk Hbefore Hstub Hterm.
  destruct (run_first_terminal stub st id a k r m) as (_ & _ & _ & ->);
    [exact Hk|exact Hbefore|exact Hstub|exact Hterm|].
  unfold surfaced, Login.statusText, Login.button_disabled, failed, or_default.
  unfold terminal_response in Hterm.
  destruct (AuthStatusResponse.status r); [discriminate Hterm|by cbn|..|by cbn].
  destruct (AuthStatusResponse.error r) as [e|]; [|by cbn].
  destruct (String.eqb e "") eqn:He; cbn; [done|]. by rewrite He.
Qed.

Lemma status_line_after_result_witness :
  stub_4_pending 4 = Resolved complete_answer
  /\ Login.statusText (authState (run stub_4_pending "abc" 6 (startPolling 1 (ready idle))))
     = "Signed in".
Proof.
  split; [reflexivity|].
  refine (proj1 (status_line_after_result stub_4_pending "abc" 1 idle 4 complete_answer 1
                   _ _ eq_refl eq_refl)); [lia|].
  intros i Hi. do 4 (destruct i as [|i]; [reflexivity|]). lia.
Defined.

(** X25. Signing out does not stop the poll.  [handleLogout] resets the state
    (status line "Ready to sign in", button enabled) and touches neither the
    timer nor the counter: when a timer is live the later periods make the
    same calls as they would have made without the logout. *)
Theorem logout_keeps_polling (c : ctrl) (stub : nat -> outcome AuthStatusResponse.t)
    (st : string) (n : nat) :
  Login.statusText (authState (Login.handleLogout c)) = "Ready to sign in"
  /\ Login.button_disabled (authState (Login.handleLogout c)) = false
  /\ pollInterval (Login.handleLogout c) = pollInterval c
  /\ pollInterval (run stub st n (Login.handleLogout c)) = pollInterval (run stub st n c)
  /\ checks (run stub st n (Login.handleLogout c)) = checks (run stub st n c).
Proof.
  split; [reflexivity|]. split; [reflexivity|]. split; [reflexivity|].
  destruct (run_agree stub st n (Login.handleLogout c) c) as (_ & K2 & K3 & _);
    try reflexivity.
  by split.
Qed.

(* ===================================================================== *)
(** ** The contract of [start] *)
(* ===================================================================== *)

(** C5, as stated, fails: [start] makes no test of the token it draws.  When
    the random bytes are those of a token that already has a record, no
    record is added: the token is not fresh, the store keeps its size, and
    the record that was there (here a complete one) is replaced by a pending
    one. *)
Lemma start_repeated_draw_adds_nothing :
  truthy (of_env (CLIENT_ID cfg0)) = true
  /\ length rand32 = 32%nat
  /\ store_taken !! Url.hex_of_bytes rand32 = Some done_entry
  /\ Entry.status done_entry = Entry.complete
  /\ size store_taken = 1%nat
  /\ size (fst (start cfg0 rand32 50 store_taken)) = 1%nat
  /\ Entry.status <$> fst (start cfg0 rand32 50 store_taken) !! Url.hex_of_bytes rand32
     = Some Entry.pending
  /\ exists popupUrl,
       snd (start cfg0 rand32 50 store_taken)
       = json (JObj [("state", JStr (Url.hex_of_bytes rand32));
                     ("popupUrl", JStr popupUrl)]).
Proof.
  split; [reflexivity|]. split; [reflexivity|]. split; [reflexivity|].
  split; [reflexivity|]. split; [reflexivity|]. split; [reflexivity|].
  split; [reflexivity|]. eexists. reflexivity.
Qed.

(** C5 (amended). When the client identifier is not configured (unset or
    empty), [start] answers 500 with [{error: 'Missing GOOGLE_CLIENT_ID'}] and
    the store is unchanged.  Otherwise it answers 200 with [{state, popupUrl}]
    where [state] is the lowercase hex form of the random bytes (two digits a
    byte, decoding back to the bytes); under that token the store then holds
    the record [{status: 'pending', createdAt: now}] and nothing else of it,
    and every other key is unchanged.  When the bytes drawn are not those of
    a token already in the store, the token is fresh and exactly one record
    is added; when the token already has a record, that record is replaced
    and none is added.  [popupUrl] is the authorization endpoint followed by
    [?] and a query string that parses to exactly the seven pairs client_id,
    redirect_uri, response_type=code, scope=openid email profile, state (the
    returned token), access_type=offline, prompt=consent. *)
Theorem start_contract (cfg : config) (rand : list ascii) (now : Z) (s : store) :
  if truthy (of_env (CLIENT_ID cfg)) then
    exists cid state popupUrl s',
      CLIENT_ID cfg = Some cid /\ cid <> ""
      /\ start cfg rand now s
         = (s', {| code := 200;
                   content := Json (JObj [("state", JStr state);
                                          ("popupUrl", JStr popupUrl)]) |})
      /\ String.length state = (2 * length rand)%nat
      /\ all_chars is_hex_lower state = true
      /\ bytes_of_hex state = rand
      /\ s' !! state
         = Some {| Entry.status := Entry.pending; Entry.createdAt := now;
                   Entry.err := JUndef; Entry.access_token := JUndef;
                   Entry.refresh_token := JUndef; Entry.id_token := JUndef;
                   Entry.expires_in := JUndef; Entry.user := JUndef |}
      /\ (forall k, k <> state -> s' !! k = s !! k)
      /\ ((forall k, is_Some (s !! k) -> bytes_of_hex k <> rand) ->
            s !! state = None /\ size s' = S (size s))
      /\ (is_Some (s !! state) -> size s' = size s)
      /\ popupUrl
         = "https://accounts.google.com/o/oauth2/v2/auth?" ++ Url.query_of popupUrl
      /\ Url.parse_query (Url.query_of popupUrl)
         = [ ("client_id", cid); ("redirect_uri", CALLBACK_URI cfg);
             ("response_type", "code"); ("scope", "openid email profile");
             ("state", state); ("access_type", "offline"); ("prompt", "consent") ]
  else
    start cfg rand now s
    = (s, {| code := 500;
             content := Json (JObj [("error", JStr "Missing GOOGLE_CLIENT_ID")]) |}).
Proof.
  unfold start. destruct (truthy (of_env (CLIENT_ID cfg))) eqn:Hcfg; [|reflexivity].
  destruct (CLIENT_ID cfg) as [cid|] eqn:Hcid; [|discriminate].
  cbn [negb].
  assert (Url.query_of (AUTH_ENDPOINT ++
            String "?" (Url.to_query (start_params cfg (Url.hex_of_bytes rand))))
          = Url.to_query (start_params cfg (Url.hex_of_bytes rand))) as Hq.
  { unfold Url.query_of. by rewrite cut_first_app. }
  change ("?" ++ ?x) with (String "?" x).
  exists cid, (Url.hex_of_bytes rand),
    (AUTH_ENDPOINT ++ String "?" (Url.to_query (start_params cfg (Url.hex_of_bytes rand)))),
    (<[Url.hex_of_bytes rand := pending_entry now]> s).
  split; [reflexivity|].
  split; [intros ->; discriminate Hcfg|].
  split; [reflexivity|].
  split; [apply hex_of_bytes_length|].
  split; [apply hex_of_bytes_chars|].
  split; [apply bytes_of_hex_of_bytes|].
  split; [apply lookup_insert_eq|].
  split; [intros k Hne; by apply lookup_insert_ne|].
  split.
  { intros Hnew.
    assert (s !! Url.hex_of_bytes rand = None) as Hfresh.
    { destruct (s !! Url.hex_of_bytes rand) as [e|] eqn:He; [|reflexivity].
      exfalso. apply (Hnew (Url.hex_of_bytes rand)); [by rewrite He|].
      apply bytes_of_hex_of_bytes. }
    split; [exact Hfresh|]. by apply map_size_insert_None. }
  split; [intros Htaken; by apply map_size_insert_Some|].
  rewrite Hq. split.
  - reflexivity.
  - rewrite parse_query_to_query. unfold start_params. by rewrite Hcid.
Qed.

Lemma start_contract_witness :
  (forall k, is_Some ((∅ : store) !! k) -> bytes_of_hex k <> rand0)
  /\ size (fst (start cfg0 rand0 9 ∅)) = 1%nat
  /\ fst (start cfg0 rand0 9 ∅) !! "00abff10"
     = Some {| Entry.status := Entry.pending; Entry.createdAt := 9;
               Entry.err := JUndef; Entry.access_token := JUndef;
               Entry.refresh_token := JUndef; Entry.id_token := JUndef;
               Entry.expires_in := JUndef; Entry.user := JUndef |}
  /\ snd (start cfg0 rand0 9 ∅)
     = json (JObj [("state", JStr "00abff10");
                   ("popupUrl", JStr ("https://accounts.google.com/o/oauth2/v2/auth"
                      ++ "?client_id=client-1"
                      ++ "&redirect_uri=http%3A%2F%2Flocalhost%3A3001%2Fauth%2Fgoogle%2Fcallback"
                      ++ "&response_type=code&scope=openid+email+profile"
                      ++ "&state=00abff10&access_type=offline&prompt=consent"))]).
Proof.
  assert (forall k, is_Some ((∅ : store) !! k) -> bytes_of_hex k <> rand0) as Hnew.
  { intros k [e He]. rewrite lookup_empty in He. discriminate. }
  split; [exact Hnew|].
  pose proof (start_contract cfg0 rand0 9 ∅) as H. cbn [cfg0 CLIENT_ID of_env truthy] in H.
  change (negb (String.eqb "client-1" "")) with true in H. cbn iota in H.
  destruct H as (cid & state & url & s' & _ & _ & Hstart & _ & _ & Hbytes & Hrec & _
                 & Hfresh & _).
  rewrite Hstart. cbn [fst snd].
  destruct (Hfresh Hnew) as [_ Hsize]. split; [by rewrite Hsize|].
  vm_compute in Hstart. injection Hstart as <- <- <-. split; reflexivity.
Defined.

(* ===================================================================== *)
(** ** The poll controller, event by event *)
(* ===================================================================== *)










